(** * The settings panel of the translator popup (src/popup/Settings.tsx)

    A shallow embedding of the two stateful components of the file, the
    [HotkeyRecorder] widget and the [Settings] form controller, together
    with the JavaScript string operations they use.

    Conventions of the embedding.
    - A JavaScript string is a [string]: a sequence of code units below 256.
    - A React component is a record of its hook state; an event handler is
      a function on that record; what the component does to the outside
      (callbacks of its props, the storage module, the toast library) is
      appended to a log kept in the record, oldest entry first.
    - A callback made by [useCallback] is kept in the record as the values
      it closed over at the render that made it. *)

From Stdlib Require Import String Ascii List Bool Arith ZArith Lia.
Import ListNotations.
Open Scope string_scope.
Open Scope nat_scope.

(** ** JavaScript strings *)

Module JS.

(** A string in a condition: only the empty string is falsy. *)
Definition truthy (s : string) : bool :=
  match s with
  | EmptyString => false
  | String _ _ => true
  end.

(** The characters [String.prototype.trim] removes, among the code units
    below 256: TAB, LF, VT, FF, CR, SPACE and NBSP. *)
Definition is_whitespace (c : ascii) : bool :=
  let n := nat_of_ascii c in
  ((9 <=? n) && (n <=? 13)) || (n =? 32) || (n =? 160).

Fixpoint trimStart (s : string) : string :=
  match s with
  | EmptyString => EmptyString
  | String c s' => if is_whitespace c then trimStart s' else s
  end.

Fixpoint trimEnd (s : string) : string :=
  match s with
  | EmptyString => EmptyString
  | String c s' =>
      match trimEnd s' with
      | EmptyString => if is_whitespace c then EmptyString
                       else String c EmptyString
      | t => String c t
      end
  end.

(** [s.trim()] *)
Definition trim (s : string) : string := trimEnd (trimStart s).

(** [toLowerCase] on one code unit: A-Z, and the Latin-1 capitals
    U+00C0..U+00DE without the multiplication sign U+00D7. *)
Definition lower_ascii (c : ascii) : ascii :=
  let n := nat_of_ascii c in
  if ((65 <=? n) && (n <=? 90))
     || ((192 <=? n) && (n <=? 222) && negb (n =? 215))
  then ascii_of_nat (n + 32)
  else c.

Fixpoint map_chars (f : ascii -> ascii) (s : string) : string :=
  match s with
  | EmptyString => EmptyString
  | String c s' => String (f c) (map_chars f s')
  end.

(** [s.toLowerCase()] *)
Definition toLowerCase (s : string) : string := map_chars lower_ascii s.

(** [s.replace(/-/g, '+')] *)
Definition replace_dash_plus (s : string) : string :=
  map_chars (fun c => if Ascii.eqb c "-" then "+"%char else c) s.

(** [s.split(sep)] for a one-character separator. The result is never
    empty: [''.split('+')] is [['']]. *)
Fixpoint split (sep : ascii) (s : string) : list string :=
  match s with
  | EmptyString => [EmptyString]
  | String c s' =>
      if Ascii.eqb c sep then EmptyString :: split sep s'
      else match split sep s' with
           | [] => [String c EmptyString]
           | h :: t => String c h :: t
           end
  end.

(** [a.join(sep)] *)
Fixpoint join (sep : string) (a : list string) : string :=
  match a with
  | [] => EmptyString
  | [x] => x
  | x :: rest => x ++ sep ++ join sep rest
  end.

(** [a.filter(Boolean)] on an array of strings. *)
Definition filter_Boolean (a : list string) : list string :=
  filter truthy a.

(** [s.includes(c)] for one character. *)
Fixpoint includes (c : ascii) (s : string) : bool :=
  match s with
  | EmptyString => false
  | String d s' => Ascii.eqb d c || includes c s'
  end.

(** A Set in insertion order: [new Set(prev).add(k)]. *)
Definition set_add (k : string) (s : list string) : list string :=
  if existsb (String.eqb k) s then s else s ++ [k].

End JS.

(** ** HotkeyRecorder *)

Module HotkeyRecorder.

(** What the recorder calls on its props. *)
Inductive recorder_call : Type :=
| OnChange (v : string)     (* props.onChange?.(v) *)
| OnBlur.                   (* props.onBlur?.() *)

(** The hook state of one mounted recorder.

    [keys] and [isRecording] belong to [useRecordHotkeys] of the package
    react-hotkeys-hook, which is not part of this repository.
    Modelled from the spec: while recording, every key press adds the
    name of the key to a live set of pressed key names; a click on the
    capture surface starts a recording with no key captured yet. *)
Record Recorder : Type := mkRecorder {
  keys : list string;          (* const [keys, ...] = useRecordHotkeys() *)
  isRecording : bool;
  hotKeys : list string;       (* useState<string[]>([]) *)
  value : option string;       (* props.value *)
  calls : list recorder_call   (* calls on the props, oldest first *)
}.

Definition setHotKeys (ks : list string) (st : Recorder) : Recorder :=
  mkRecorder (keys st) (isRecording st) ks (value st) (calls st).

Definition emit (c : recorder_call) (st : Recorder) : Recorder :=
  mkRecorder (keys st) (isRecording st) (hotKeys st) (value st)
             (calls st ++ [c]).

(** [props.value.replace(/-/g, '+').split('+').map((k) => k.trim())
     .filter(Boolean)] *)
Definition parse (v : string) : list string :=
  JS.filter_Boolean
    (map JS.trim (JS.split "+" (JS.replace_dash_plus v))).

(** [k.toLowerCase() !== 'meta'] *)
Definition not_meta (k : string) : bool :=
  negb (String.eqb (JS.toLowerCase k) "meta").

(** The effect on [props.value] (lines 160-170). *)
Definition seed_effect (st : Recorder) : Recorder :=
  match value st with
  | Some v => if JS.truthy v then setHotKeys (parse v) st else st
  | None => st
  end.

(** The effect on [keys] (lines 172-179). *)
Definition keys_effect (st : Recorder) : Recorder :=
  let keys_ := keys st in
  if 0 <? length keys_ then
    let keys_ := filter not_meta keys_ in
    emit (OnChange (JS.join "+" keys_)) (setHotKeys keys_ st)
  else st.

(** The effect on [isRecording] (lines 181-185). *)
Definition idle_effect (st : Recorder) : Recorder :=
  if negb (isRecording st)
  then emit (OnChange (JS.join "+" (hotKeys st))) st
  else st.

(** First render and its effects. All three effects run after the first
    render and see its [hotKeys], the empty array: the seeding effect
    only schedules the new list, so the idle effect joins the empty one. *)
Definition recorder_mount (v : option string) : Recorder :=
  let st0 := mkRecorder [] false [] v [] in
  seed_effect (idle_effect (keys_effect st0)).

(** [start()] of useRecordHotkeys: a fresh empty key set, recording on. *)
Definition start (st : Recorder) : Recorder :=
  mkRecorder [] true (hotKeys st) (value st) (calls st).

(** [stop()] of useRecordHotkeys: recording off, the keys are kept. *)
Definition stop (st : Recorder) : Recorder :=
  mkRecorder (keys st) false (hotKeys st) (value st) (calls st).

Definition add_key (k : string) (st : Recorder) : Recorder :=
  mkRecorder (JS.set_add k (keys st)) (isRecording st) (hotKeys st)
             (value st) (calls st).

Definition set_value (v : option string) (st : Recorder) : Recorder :=
  mkRecorder (keys st) (isRecording st) (hotKeys st) v (calls st).

Definition option_string_eqb (a b : option string) : bool :=
  match a, b with
  | Some x, Some y => String.eqb x y
  | None, None => true
  | _, _ => false
  end.

Inductive recorder_event : Type :=
| ClickSurface                    (* onClick of the capture surface *)
| ClickOutside                    (* the document-level click listener *)
| KeyDown (k : string)            (* a key press, by its key name *)
| ValueProp (v : option string).  (* the parent renders with this value *)

(** One event: the handler, the render it causes, and the effects whose
    dependencies changed in that render. *)
Definition recorder_step (e : recorder_event) (st : Recorder) : Recorder :=
  match e with
  | ClickSurface =>
      if negb (isRecording st)
      then idle_effect (keys_effect (start st))
      else idle_effect (stop st)
  | ClickOutside =>
      (* stopRecording: stop() then props.onBlur?.() inside the handler;
         the effect on isRecording runs after the render that follows. *)
      if isRecording st
      then idle_effect (emit OnBlur (stop st))
      else st
  | KeyDown k =>
      (* the keydown listener is installed only while recording *)
      if isRecording st then keys_effect (add_key k st) else st
  | ValueProp v =>
      if option_string_eqb v (value st) then st
      else seed_effect (set_value v st)
  end.

Fixpoint recorder_run (es : list recorder_event) (st : Recorder)
  : Recorder :=
  match es with
  | [] => st
  | e :: es' => recorder_run es' (recorder_step e st)
  end.

(** The values handed to [props.onChange], oldest first. *)
Fixpoint committed (cs : list recorder_call) : list string :=
  match cs with
  | [] => []
  | OnChange v :: cs' => v :: committed cs'
  | OnBlur :: cs' => committed cs'
  end.

(** The components of a committed hotkey string. *)
Definition components (v : string) : list string := JS.split "+" v.

(** No component of the string is the key name meta, in any letter case. *)
Definition meta_free (v : string) : bool :=
  forallb not_meta (components v).

(** An incoming value that names no meta key. *)
Definition value_meta_free (v : option string) : bool :=
  match v with
  | Some s => forallb not_meta (parse s)
  | None => true
  end.

(** An event that brings no meta key from outside: an incoming value
    names none, and a pressed key is named as a single key, without a
    "+" inside its name. *)
Definition event_meta_free (e : recorder_event) : bool :=
  match e with
  | KeyDown k => negb (JS.includes "+" k)
  | ValueProp v => value_meta_free v
  | ClickSurface | ClickOutside => true
  end.

(** A key name the recorder may show: a single key, and not meta. *)
Definition key_ok (k : string) : Prop :=
  JS.includes "+" k = false /\ not_meta k = true.

(** What every reachable state satisfies when nothing brings a meta key
    from outside. *)
Definition invariant (st : Recorder) : Prop :=
  Forall (fun k => JS.includes "+" k = false) (keys st)
  /\ Forall key_ok (hotKeys st)
  /\ Forall (fun v => meta_free v = true) (committed (calls st)).

(** The key list of the spec's words for an incoming value: both "+" and
    "-" are separators, the string is split on them and every piece is
    trimmed. *)
Fixpoint spec_split (s : string) : list string :=
  match s with
  | EmptyString => [EmptyString]
  | String c s' =>
      if Ascii.eqb c "+" || Ascii.eqb c "-"
      then EmptyString :: spec_split s'
      else match spec_split s' with
           | [] => [String c EmptyString]
           | h :: t => String c h :: t
           end
  end.

Definition spec_seed (v : string) : list string :=
  map JS.trim (spec_split v).

End HotkeyRecorder.

(** ** AutoTranslateCheckbox *)

Module AutoTranslateCheckbox.

(** What the checkbox calls on its props. *)
Inductive toggle_call : Type :=
| ToggleOnChange (checked : bool)   (* props.onChange?.(e.target.checked) *)
| ToggleOnBlur.                     (* props.onBlur?.() *)

(** The onChange handler of the Checkbox (lines 107-110): the calls it
    makes on the props, in order. *)
Definition handleChange (checked : bool) : list toggle_call :=
  [ToggleOnChange checked; ToggleOnBlur].

End AutoTranslateCheckbox.

(** ** The settings record of common/utils *)

Module utils.

(** [TranslateMode | 'nop'] *)
Inductive TranslateMode : Type :=
| translate | polishing | summarize | analyze | explain_code | nop.

Record ISettings : Type := mkSettings {
  apiKeys : string;
  apiURL : string;
  autoTranslate : bool;
  defaultTranslateMode : TranslateMode;
  defaultTargetLanguage : string;
  hotkey : string
}.

Definition TranslateMode_eqb (a b : TranslateMode) : bool :=
  match a, b with
  | translate, translate | polishing, polishing | summarize, summarize
  | analyze, analyze | explain_code, explain_code | nop, nop => true
  | _, _ => false
  end.

(** [_.isEqual] of underscore on two settings records: deep equality,
    field by field. *)
Definition isEqual (a b : ISettings) : bool :=
  String.eqb (apiKeys a) (apiKeys b)
  && String.eqb (apiURL a) (apiURL b)
  && Bool.eqb (autoTranslate a) (autoTranslate b)
  && TranslateMode_eqb (defaultTranslateMode a) (defaultTranslateMode b)
  && String.eqb (defaultTargetLanguage a) (defaultTargetLanguage b)
  && String.eqb (hotkey a) (hotkey b).

Definition with_autoTranslate (b : bool) (s : ISettings) : ISettings :=
  mkSettings (apiKeys s) (apiURL s) b (defaultTranslateMode s)
             (defaultTargetLanguage s) (hotkey s).

End utils.

(** ** Settings, the form controller *)

Module Settings.
Import utils.

(** [IPopupProps]: whether the optional [onSave] callback was supplied. *)
Record IPopupProps : Type := mkProps { has_onSave : bool }.

(** What the component does to its collaborators. *)
Inductive effect : Type :=
| CallSetSettings (d : ISettings)                 (* utils.setSettings(d) *)
| CallToast (msg icon : string) (duration : Z)    (* toast(msg, {...}) *)
| CallOnSave (d : ISettings).                     (* props.onSave?.(d) *)

(** How the promise of [utils.setSettings] settles. *)
Inductive settled : Type := Resolved | Rejected.

(** The [onBlur] made by [useCallback(..., [values])]: the [values] and
    [prevValues] of the render that made it. *)
Record Closure : Type := mkClosure {
  c_values : ISettings;
  c_prevValues : ISettings
}.

(** The hook state of the mounted form.

    [values_changed] says that [setValues] was called with a new object
    since the last render, so that the dependency list [[values]] of
    [onBlur] differs at the next render; [getSettings] and the form's
    [onValuesChange] hand over a new object each time.

    [stored] is the storage module seen from this component.
    Modelled from the spec: [setSettings(Settings): Promise<void>] is a
    single asynchronous key-value write; [stored] is the last record
    written by a call that resolved. *)
Record State : Type := mkState {
  props : IPopupProps;
  loading : bool;              (* useState(false) *)
  values : ISettings;          (* useState<utils.ISettings>({...}) *)
  prevValues : ISettings;      (* useState<utils.ISettings>(values) *)
  values_changed : bool;
  onBlur_memo : Closure;       (* the onBlur the fields received *)
  stored : option ISettings;
  log : list effect            (* oldest first *)
}.

(** A render: [useCallback] makes a new [onBlur] only when [values]
    changed; otherwise the fields keep the one they have. *)
Definition render (st : State) : State :=
  if values_changed st
  then mkState (props st) (loading st) (values st) (prevValues st) false
               (mkClosure (values st) (prevValues st)) (stored st) (log st)
  else st.

(** Handlers: a state and error monad. [Thrown] is a rejection that
    leaves the async function: nothing after it runs. *)
Inductive result (A : Type) : Type :=
| Done (a : A)
| Thrown.
Arguments Done {A} a.
Arguments Thrown {A}.

Definition M (A : Type) : Type := State -> result A * State.

Definition ret {A : Type} (a : A) : M A := fun st => (Done a, st).

Definition bind {A B : Type} (m : M A) (k : A -> M B) : M B :=
  fun st =>
    match m st with
    | (Done a, st') => k a st'
    | (Thrown, st') => (Thrown, st')
    end.

Notation "m ;; k" := (bind m (fun _ => k))
  (at level 61, right associativity).

Definition setLoading (b : bool) : M unit := fun st =>
  (Done tt, mkState (props st) b (values st) (prevValues st)
                    (values_changed st) (onBlur_memo st) (stored st)
                    (log st)).

Definition setValues (v : ISettings) : M unit := fun st =>
  (Done tt, mkState (props st) (loading st) v (prevValues st) true
                    (onBlur_memo st) (stored st) (log st)).

Definition setPrevValues (v : ISettings) : M unit := fun st =>
  (Done tt, mkState (props st) (loading st) (values st) v
                    (values_changed st) (onBlur_memo st) (stored st)
                    (log st)).

Definition perform (e : effect) : M unit := fun st =>
  (Done tt, mkState (props st) (loading st) (values st) (prevValues st)
                    (values_changed st) (onBlur_memo st) (stored st)
                    (log st ++ [e])).

Definition write (d : ISettings) : M unit := fun st =>
  (Done tt, mkState (props st) (loading st) (values st) (prevValues st)
                    (values_changed st) (onBlur_memo st) (Some d)
                    (log st)).

(** [await utils.setSettings(d)]: the call is made, the handler is
    suspended and React renders the updates made so far; then the
    promise settles. *)
Definition await_setSettings (r : settled) (d : ISettings) : M unit :=
  perform (CallSetSettings d) ;;
  (fun st => (Done tt, render st)) ;;
  match r with
  | Resolved => write d
  | Rejected => fun st => (Thrown, st)
  end.

(** [toast('Saved', { icon: ..., duration: 3000 })] *)
Definition toast (msg icon : string) (duration : Z) : M unit :=
  perform (CallToast msg icon duration).

(** [props.onSave?.(data)] *)
Definition call_onSave (data : ISettings) : M unit := fun st =>
  if has_onSave (props st) then perform (CallOnSave data) st
  else (Done tt, st).

(** The icon of the toast, U+1F44D, in UTF-8. *)
Definition thumbs_up : string := "👍".

(** [onChange] (lines 259-261) *)
Definition onChange (values_ : ISettings) : M unit :=
  setValues values_.

(** [onSubmmit] (lines 263-272) *)
Definition onSubmmit (r : settled) (data : ISettings) : M unit :=
  setLoading true ;;
  await_setSettings r data ;;
  toast "Saved" thumbs_up 3000 ;;
  setLoading false ;;
  call_onSave data.

(** [onBlur] (lines 274-279), as the closure [c] the fields hold. *)
Definition onBlur (c : Closure) (r : settled) : M unit :=
  if JS.truthy (apiKeys (c_values c))
     && negb (isEqual (c_values c) (c_prevValues c))
  then await_setSettings r (c_values c) ;;
       setPrevValues (c_values c)
  else ret tt.

(** The body of the mount effect after [await utils.getSettings()]
    (lines 253-255). The two updates are rendered together (React 18
    batches updates made outside event handlers too), so the [onBlur]
    made by that render closes over the new [prevValues]. *)
Definition loaded (settings : ISettings) : M unit :=
  setValues settings ;;
  setPrevValues settings.

(** One call of the checkbox on the props it received at the last
    render: [onChange] is the form's, which puts the new flag into its
    store and reports all values to [onValuesChange]; [onBlur] is the
    closure [c].
    Modelled from the spec: the generic form abstraction [createForm]
    holds the same snapshot as [values] (field widget, form, local
    state). *)
Definition checkbox_call (c : Closure) (r : settled)
           (k : AutoTranslateCheckbox.toggle_call) : M unit :=
  match k with
  | AutoTranslateCheckbox.ToggleOnChange checked =>
      fun st => onChange (with_autoTranslate checked (values st)) st
  | AutoTranslateCheckbox.ToggleOnBlur => onBlur c r
  end.

Fixpoint checkbox_calls (c : Closure) (r : settled)
         (ks : list AutoTranslateCheckbox.toggle_call) : M unit :=
  match ks with
  | [] => ret tt
  | k :: ks' => checkbox_call c r k ;; checkbox_calls c r ks'
  end.

Inductive event : Type :=
| LoadResolved (settings : ISettings)    (* getSettings() resolved *)
| FieldChange (values_ : ISettings)      (* onValuesChange of the form *)
| FieldBlur (r : settled)                (* onBlur of a field *)
| CheckboxToggle (checked : bool) (r : settled)
| Submit (data : ISettings) (r : settled).   (* onFinish of the form *)

Definition handler (e : event) : M unit :=
  match e with
  | LoadResolved settings => loaded settings
  | FieldChange values_ => onChange values_
  | FieldBlur r => fun st => onBlur (onBlur_memo st) r st
  | CheckboxToggle checked r =>
      fun st => checkbox_calls (onBlur_memo st) r
                  (AutoTranslateCheckbox.handleChange checked) st
  | Submit data r => onSubmmit r data
  end.

(** One event: its handler runs, then React renders. *)
Definition step (e : event) (st : State) : State :=
  render (snd (handler e st)).

Fixpoint run (es : list event) (st : State) : State :=
  match es with
  | [] => st
  | e :: es' => run es' (step e st)
  end.

Section Mount.
(** Constants of common/utils, which is not in this file. *)
Variable defaultAPIURL : string.
Variable defaultAutoTranslate : bool.
Variable defaultTargetLanguage_ : string.

(** The initial [values] (lines 235-242). *)
Definition initialValues : ISettings :=
  mkSettings "" defaultAPIURL defaultAutoTranslate translate
             defaultTargetLanguage_ "".

(** The first render. *)
Definition mount (p : IPopupProps) : State :=
  mkState p false initialValues initialValues false
          (mkClosure initialValues initialValues) None [].
End Mount.

(** Records and a freshly mounted form used in the examples. *)
Definition persisted : ISettings :=
  mkSettings "sk-1" "https://api.openai.com" false translate "en" "".

Definition edited : ISettings :=
  mkSettings "sk-1" "https://example.org" false translate "en" "".

Definition mounted : State :=
  mount "https://api.openai.com" false "zh-Hans" (mkProps true).

(** The entries an event adds to the log. *)
Definition new_effects (e : event) (st : State) : list effect :=
  skipn (length (log st)) (log (step e st)).

(** An event that is not an edit of the snapshot [v0] and not the arrival
    of the settings: a blur, a submit, or a change report of the form that
    carries the very same values (the hotkey recorder makes one when it
    is mounted, with the empty hotkey). *)
Definition no_edit (v0 : ISettings) (e : event) : bool :=
  match e with
  | FieldBlur _ | Submit _ _ => true
  | FieldChange values_ => isEqual values_ v0
  | LoadResolved _ | CheckboxToggle _ _ => false
  end.

End Settings.

(** ** The two selectors *)

Module Selectors.
Import utils.
Local Open Scope list_scope.

(** An option of the Select component, as this file makes them: an id and,
    in the option lists, a label. *)
Record SelectOption : Type := mkOption {
  id : string;
  label : option string
}.

(** [langOptions] (lines 22-30): the reduce over [supportLanguages], a
    list of [[id, label]] pairs of content_script/lang, taken as a
    parameter. *)
Definition langOptions (supportLanguages : list (string * string))
  : list SelectOption :=
  fold_left (fun acc p => acc ++ [mkOption (fst p) (Some (snd p))])
            supportLanguages [].

(** What a change handler of a selector does. *)
Inductive change_result : Type :=
| Emitted (v : option string)   (* props.onChange?.(v); None is undefined *)
| TypeError.                    (* reading .id of undefined *)


(** LanguageSelector, onChange (lines 48-51): [selected?.id] of the first
    selected option. *)
Definition language_onChange (value : list SelectOption) : change_result :=
  match value with
  | selected :: _ => Emitted (Some (id selected))
  | [] => Emitted None
  end.

(** The id strings of the translate modes. *)
Definition mode_id (m : TranslateMode) : string :=
  match m with
  | translate => "translate"
  | polishing => "polishing"
  | summarize => "summarize"
  | analyze => "analyze"
  | explain_code => "explain-code"
  | nop => "nop"
  end.

(** TranslateModeSelector: [props.value && [{ id: props.value }]]
    (lines 75-81); without a value no selection is passed. *)
Definition mode_value (value : option TranslateMode) : list SelectOption :=
  match value with
  | Some m => [mkOption (mode_id m) None]
  | None => []
  end.

(** TranslateModeSelector, onChange (lines 82-84): [params.value[0].id],
    with no guard for an empty selection. *)
Definition mode_onChange (value : list SelectOption) : change_result :=
  match value with
  | selected :: _ => Emitted (Some (id selected))
  | [] => TypeError
  end.

(** The options of TranslateModeSelector (lines 85-97). *)
Definition mode_options : list SelectOption :=
  [ mkOption "translate" (Some "Translate");
    mkOption "polishing" (Some "Polishing");
    mkOption "summarize" (Some "Summarize");
    mkOption "analyze" (Some "Analyze");
    mkOption "explain-code" (Some "Explain Code");
    mkOption "nop" (Some "Nop") ].

End Selectors.

(** ** Runs of the recorder and of the form *)

Module Traces.
Import utils.
Local Open Scope list_scope.

(** A key name that the seeding effect gives back as it is: not empty,
    without "+" or "-", and with no white space at its ends. *)
Definition seedable (k : string) : bool :=
  JS.truthy k
  && negb (JS.includes "+" k)
  && negb (JS.includes "-" k)
  && String.eqb (JS.trim k) k.

(** A string that does not begin with white space. *)
Definition starts_clean (s : string) : bool :=
  match s with
  | EmptyString => true
  | String c _ => negb (JS.is_whitespace c)
  end.

(** The key set of useRecordHotkeys after the keys [ks] were pressed in
    this order on the set [s]. *)
Definition pressed (ks : list string) (s : list string) : list string :=
  fold_left (fun acc k => JS.set_add k acc) ks s.

Definition is_blur (c : HotkeyRecorder.recorder_call) : bool :=
  match c with
  | HotkeyRecorder.OnBlur => true
  | HotkeyRecorder.OnChange _ => false
  end.

Definition not_outside (e : HotkeyRecorder.recorder_event) : bool :=
  match e with
  | HotkeyRecorder.ClickOutside => false
  | _ => true
  end.

(** The events that reach no handler of an idle recorder. *)
Definition key_or_outside (e : HotkeyRecorder.recorder_event) : bool :=
  match e with
  | HotkeyRecorder.KeyDown _ | HotkeyRecorder.ClickOutside => true
  | _ => false
  end.

Definition is_stop (e : HotkeyRecorder.recorder_event) : bool :=
  match e with
  | HotkeyRecorder.ClickSurface | HotkeyRecorder.ClickOutside => true
  | _ => false
  end.

Definition is_toast (e : Settings.effect) : bool :=
  match e with
  | Settings.CallToast _ _ _ => true
  | _ => false
  end.

Definition is_onSave (e : Settings.effect) : bool :=
  match e with
  | Settings.CallOnSave _ => true
  | _ => false
  end.

(** A write, if the entry is one, carries a non-empty API key. *)
Definition write_has_key (e : Settings.effect) : bool :=
  match e with
  | Settings.CallSetSettings d => JS.truthy (apiKeys d)
  | _ => true
  end.

Definition not_submit (e : Settings.event) : bool :=
  match e with
  | Settings.Submit _ _ => false
  | _ => true
  end.

(** The submits of a run whose write resolved. *)
Fixpoint resolved_submits (es : list Settings.event) : nat :=
  match es with
  | [] => 0
  | Settings.Submit _ Settings.Resolved :: es' => S (resolved_submits es')
  | _ :: es' => resolved_submits es'
  end.

(** How the write of the last submit of a run settled. *)
Fixpoint last_submit (es : list Settings.event) : option Settings.settled :=
  match es with
  | [] => None
  | e :: es' =>
      match last_submit es', e with
      | Some r, _ => Some r
      | None, Settings.Submit _ r => Some r
      | None, _ => None
      end
  end.

(** The guard of [onBlur], on the closure the fields hold. *)
Definition guard (c : Settings.Closure) : bool :=
  JS.truthy (apiKeys (Settings.c_values c))
  && negb (isEqual (Settings.c_values c) (Settings.c_prevValues c)).

(** What an event adds to the log, read off the handlers. *)
Definition effects_of (e : Settings.event) (st : Settings.State)
  : list Settings.effect :=
  match e with
  | Settings.LoadResolved _ | Settings.FieldChange _ => []
  | Settings.FieldBlur _ | Settings.CheckboxToggle _ _ =>
      if guard (Settings.onBlur_memo st)
      then [Settings.CallSetSettings
              (Settings.c_values (Settings.onBlur_memo st))]
      else []
  | Settings.Submit d Settings.Rejected => [Settings.CallSetSettings d]
  | Settings.Submit d Settings.Resolved =>
      [Settings.CallSetSettings d;
       Settings.CallToast "Saved" Settings.thumbs_up 3000%Z]
      ++ (if Settings.has_onSave (Settings.props st)
          then [Settings.CallOnSave d] else [])
  end.

End Traces.

(** * Properties *)

(** ** Strings *)

Section StringFacts.

Variable sep : ascii.

Lemma split_not_nil (s : string) : JS.split sep s <> [].
Proof.
  induction s as [|c s IH]; simpl; [discriminate|].
  destruct (Ascii.eqb c sep); [discriminate|].
  destruct (JS.split sep s); discriminate.
Qed.

Lemma split_pieces (s : string) :
  Forall (fun p => JS.includes sep p = false) (JS.split sep s).
Proof.
  induction s as [|c s IH]; simpl.
  - constructor; [reflexivity|constructor].
  - destruct (Ascii.eqb c sep) eqn:E.
    + constructor; [reflexivity|exact IH].
    + destruct (JS.split sep s) as [|h t]; simpl.
      * constructor; [simpl; rewrite E; reflexivity|constructor].
      * inversion IH; subst. constructor; [|assumption].
        simpl. rewrite E. assumption.
Qed.

Lemma split_app_sep (x t : string) :
  JS.includes sep x = false ->
  JS.split sep (x ++ String sep t) = x :: JS.split sep t.
Proof.
  induction x as [|c x IH]; simpl; intros H.
  - rewrite Ascii.eqb_refl. reflexivity.
  - apply orb_false_iff in H. destruct H as [Hc Hx].
    rewrite Hc, (IH Hx). reflexivity.
Qed.

Lemma split_no_sep (x : string) :
  JS.includes sep x = false -> JS.split sep x = [x].
Proof.
  induction x as [|c x IH]; simpl; intros H; [reflexivity|].
  apply orb_false_iff in H. destruct H as [Hc Hx].
  rewrite Hc, (IH Hx). reflexivity.
Qed.

(** Splitting undoes joining, for names without the separator. *)
Lemma split_join (ks : list string) :
  ks <> [] ->
  Forall (fun k => JS.includes sep k = false) ks ->
  JS.split sep (JS.join (String sep EmptyString) ks) = ks.
Proof.
  induction ks as [|k ks IH]; intros Hne Hall; [congruence|].
  inversion Hall as [|? ? Hk Hks]; subst.
  destruct ks as [|k' ks'].
  - simpl. apply split_no_sep. assumption.
  - change (JS.join (String sep EmptyString) (k :: k' :: ks'))
      with (k ++ String sep (JS.join (String sep EmptyString) (k' :: ks'))).
    rewrite split_app_sep by assumption.
    rewrite IH; [reflexivity|discriminate|assumption].
Qed.

Lemma includes_trimStart (s : string) :
  JS.includes sep s = false -> JS.includes sep (JS.trimStart s) = false.
Proof.
  induction s as [|c s IH]; simpl; intros H; [reflexivity|].
  apply orb_false_iff in H. destruct H as [Hc Hs].
  destruct (JS.is_whitespace c); [auto|].
  simpl. rewrite Hc. assumption.
Qed.

Lemma includes_trimEnd (s : string) :
  JS.includes sep s = false -> JS.includes sep (JS.trimEnd s) = false.
Proof.
  induction s as [|c s IH]; simpl; intros H; [reflexivity|].
  apply orb_false_iff in H. destruct H as [Hc Hs].
  specialize (IH Hs).
  destruct (JS.trimEnd s) as [|d t].
  - destruct (JS.is_whitespace c); simpl; [reflexivity|].
    rewrite Hc. reflexivity.
  - simpl. rewrite Hc. exact IH.
Qed.

Lemma includes_trim (s : string) :
  JS.includes sep s = false -> JS.includes sep (JS.trim s) = false.
Proof.
  intros H. unfold JS.trim.
  apply includes_trimEnd, includes_trimStart, H.
Qed.

End StringFacts.

(** Replacing "-" by "+" and splitting on "+" is splitting on both. *)
Lemma split_replace (s : string) :
  JS.split "+" (JS.replace_dash_plus s) = HotkeyRecorder.spec_split s.
Proof.
  induction s as [|c s IH]; [reflexivity|].
  unfold JS.replace_dash_plus in *. simpl. rewrite IH.
  destruct (Ascii.eqb c "-") eqn:Ed.
  - rewrite orb_true_r. reflexivity.
  - rewrite orb_false_r. reflexivity.
Qed.

(** ** HotkeyRecorder *)

Section RecorderFacts.
Import HotkeyRecorder.
Local Open Scope list_scope.

Lemma committed_app (a b : list recorder_call) :
  committed (a ++ b) = committed a ++ committed b.
Proof.
  induction a as [|c a IH]; simpl; [reflexivity|].
  destruct c; simpl; rewrite IH; reflexivity.
Qed.

Lemma key_ok_not_meta (ks : list string) :
  Forall key_ok ks -> forallb not_meta ks = true.
Proof.
  induction 1 as [|k ks [_ Hm] _ IH]; simpl; [reflexivity|].
  rewrite Hm. exact IH.
Qed.

Lemma key_ok_single (ks : list string) :
  Forall key_ok ks -> Forall (fun k => JS.includes "+" k = false) ks.
Proof.
  intros H. eapply Forall_impl; [|exact H]. intros k [Hk _]. exact Hk.
Qed.

(** A joined list of shown keys has no meta component. *)
Lemma meta_free_join (ks : list string) :
  Forall key_ok ks -> meta_free (JS.join "+" ks) = true.
Proof.
  intros H. unfold meta_free, components.
  destruct ks as [|k ks]; [reflexivity|].
  rewrite (split_join "+"%char (k :: ks));
    [apply key_ok_not_meta; assumption|discriminate|].
  apply key_ok_single. assumption.
Qed.

Lemma parse_single (v : string) :
  Forall (fun k => JS.includes "+" k = false) (parse v).
Proof.
  unfold parse, JS.filter_Boolean.
  apply Forall_forall. intros k Hk.
  apply filter_In in Hk. destruct Hk as [Hk _].
  apply in_map_iff in Hk. destruct Hk as [p [<- Hp]].
  apply includes_trim.
  pose proof (split_pieces "+"%char (JS.replace_dash_plus v)) as Hall.
  rewrite Forall_forall in Hall. apply Hall. exact Hp.
Qed.

Lemma parse_key_ok (v : string) :
  forallb not_meta (parse v) = true -> Forall key_ok (parse v).
Proof.
  intros H. rewrite forallb_forall in H.
  pose proof (parse_single v) as Hs. rewrite Forall_forall in Hs.
  apply Forall_forall. intros k Hk. split; auto.
Qed.

Lemma filter_key_ok (ks : list string) :
  Forall (fun k => JS.includes "+" k = false) ks ->
  Forall key_ok (filter not_meta ks).
Proof.
  intros H. rewrite Forall_forall in H.
  apply Forall_forall. intros k Hk.
  apply filter_In in Hk. destruct Hk as [Hk Hm]. split; auto.
Qed.

Lemma set_add_single (k : string) (ks : list string) :
  JS.includes "+" k = false ->
  Forall (fun k => JS.includes "+" k = false) ks ->
  Forall (fun k => JS.includes "+" k = false) (JS.set_add k ks).
Proof.
  intros Hk Hks. unfold JS.set_add.
  destruct (existsb (String.eqb k) ks); [assumption|].
  apply Forall_app. split; [assumption|]. constructor; [assumption|constructor].
Qed.

Lemma invariant_emit_join (st : Recorder) (ks : list string) :
  Forall key_ok ks ->
  invariant st ->
  invariant (emit (OnChange (JS.join "+" ks)) st).
Proof.
  intros Hks (Hk & Hh & Hc). repeat split; simpl; try assumption.
  rewrite committed_app. apply Forall_app. split; [assumption|].
  simpl. constructor; [apply meta_free_join; assumption|constructor].
Qed.

Lemma invariant_setHotKeys (st : Recorder) (ks : list string) :
  Forall key_ok ks -> invariant st -> invariant (setHotKeys ks st).
Proof.
  intros Hks (Hk & Hh & Hc). repeat split; simpl; assumption.
Qed.

Lemma invariant_keys_effect (st : Recorder) :
  invariant st -> invariant (keys_effect st).
Proof.
  intros H. unfold keys_effect.
  destruct (0 <? length (keys st)); [|assumption].
  assert (Hf : Forall key_ok (filter not_meta (keys st)))
    by (apply filter_key_ok; apply H).
  apply invariant_emit_join; [assumption|].
  apply invariant_setHotKeys; assumption.
Qed.

Lemma invariant_idle_effect (st : Recorder) :
  invariant st -> invariant (idle_effect st).
Proof.
  intros H. unfold idle_effect.
  destruct (negb (isRecording st)); [|assumption].
  apply invariant_emit_join; [apply H|assumption].
Qed.

Lemma invariant_seed_effect (st : Recorder) :
  value_meta_free (value st) = true ->
  invariant st -> invariant (seed_effect st).
Proof.
  intros Hv H. unfold seed_effect.
  destruct (value st) as [v|]; [|assumption].
  destruct (JS.truthy v); [|assumption].
  apply invariant_setHotKeys; [|assumption].
  apply parse_key_ok. exact Hv.
Qed.

Lemma invariant_mount (v : option string) :
  value_meta_free v = true -> invariant (recorder_mount v).
Proof.
  intros Hv. unfold recorder_mount.
  apply invariant_seed_effect; [exact Hv|].
  apply invariant_idle_effect, invariant_keys_effect.
  repeat split; constructor.
Qed.

Lemma invariant_step (e : recorder_event) (st : Recorder) :
  event_meta_free e = true -> invariant st -> invariant (recorder_step e st).
Proof.
  intros He H. destruct e as [| |k|v]; simpl.
  - destruct (negb (isRecording st)).
    + apply invariant_idle_effect, invariant_keys_effect.
      destruct H as (Hk & Hh & Hc). repeat split; simpl; auto.
    + apply invariant_idle_effect.
      destruct H as (Hk & Hh & Hc). repeat split; simpl; auto.
  - destruct (isRecording st); [|assumption].
    apply invariant_idle_effect.
    destruct H as (Hk & Hh & Hc). repeat split; simpl; auto.
    rewrite committed_app, app_nil_r. assumption.
  - destruct (isRecording st); [|assumption].
    apply invariant_keys_effect.
    destruct H as (Hk & Hh & Hc). repeat split; simpl; auto.
    apply set_add_single; [|assumption].
    simpl in He. apply negb_true_iff in He. exact He.
  - destruct (option_string_eqb v (value st)); [assumption|].
    apply invariant_seed_effect; [exact He|].
    destruct H as (Hk & Hh & Hc). repeat split; simpl; auto.
Qed.

Lemma invariant_run (es : list recorder_event) (st : Recorder) :
  forallb event_meta_free es = true ->
  invariant st -> invariant (recorder_run es st).
Proof.
  revert st. induction es as [|e es IH]; simpl; intros st Hes H.
  - assumption.
  - apply andb_true_iff in Hes. destruct Hes as [He Hes].
    apply IH; [assumption|]. apply invariant_step; assumption.
Qed.

Lemma option_string_eqb_eq (a b : option string) :
  option_string_eqb a b = true -> a = b.
Proof.
  destruct a as [x|], b as [y|]; simpl; try discriminate; auto.
  intros H. apply String.eqb_eq in H. congruence.
Qed.

Lemma truthy_nonempty (v : string) : v <> "" -> JS.truthy v = true.
Proof. destruct v; [congruence|reflexivity]. Qed.

(** Pressing ctrl, then k, then clicking elsewhere: "ctrl+k" is committed,
    and a meta key pressed on the way is left out. *)
Example record_ctrl_k :
  committed (calls (recorder_run
                      [ClickSurface; KeyDown "ctrl"; KeyDown "meta";
                       KeyDown "k"; ClickOutside]
                      (recorder_mount None)))
  = [""; "ctrl"; "ctrl"; "ctrl+k"; "ctrl+k"]
  /\ hotKeys (recorder_run
                [ClickSurface; KeyDown "ctrl"; KeyDown "meta";
                 KeyDown "k"; ClickOutside]
                (recorder_mount None))
     = ["ctrl"; "k"].
Proof. split; reflexivity. Qed.

(** While recording, a key press commits the keys pressed so far without
    the meta key, whatever was shown before. *)
Lemma keydown_commits_filtered (st : Recorder) (k : string) :
  isRecording st = true ->
  calls (recorder_step (KeyDown k) st)
  = calls st
    ++ [OnChange (JS.join "+" (filter not_meta (JS.set_add k (keys st))))].
Proof.
  intros H. simpl. rewrite H. unfold keys_effect. simpl.
  assert (Hlen : (0 <? length (JS.set_add k (keys st))) = true).
  { unfold JS.set_add.
    destruct (existsb (String.eqb k) (keys st)) eqn:E.
    - destruct (keys st); [discriminate|reflexivity].
    - rewrite length_app. simpl. apply Nat.ltb_lt. lia. }
  rewrite Hlen. reflexivity.
Qed.

(** C4, as the code has it: when no incoming value names a meta key (and
    pressed keys are named as single keys), no value the recorder hands
    to onChange has meta among its "+"-separated components, whether it
    was committed by a key press or on the transition to idle. *)
Theorem committed_values_meta_free (v0 : option string) (es : list recorder_event) :
  value_meta_free v0 = true ->
  forallb event_meta_free es = true ->
  Forall (fun v => meta_free v = true)
         (committed (calls (recorder_run es (recorder_mount v0)))).
Proof.
  intros Hv Hes.
  apply (invariant_run es (recorder_mount v0) Hes (invariant_mount v0 Hv)).
Qed.

Lemma committed_values_meta_free_witness :
  value_meta_free (Some "ctrl+k") = true
  /\ forallb event_meta_free
       [ClickSurface; KeyDown "meta"; KeyDown "shift"; KeyDown "p";
        ClickOutside] = true
  /\ Forall (fun v => meta_free v = true)
       (committed (calls (recorder_run [ClickSurface; KeyDown "meta";
                               KeyDown "shift"; KeyDown "p"; ClickOutside]
                              (recorder_mount (Some "ctrl+k"))))).
Proof.
  split; [reflexivity|]. split; [reflexivity|].
  apply (committed_values_meta_free (Some "ctrl+k")); reflexivity.
Defined.

(** C4 fails as stated: a recorder seeded with the stored value "Meta+k"
    commits that very string when a recording is started and stopped. *)
Lemma seeded_meta_is_committed :
  committed (calls (recorder_run [ClickSurface; ClickSurface]
                        (recorder_mount (Some "Meta+k"))))
  = [""; "Meta+k"]
  /\ meta_free "Meta+k" = false.
Proof. split; reflexivity. Qed.

(** C5, as the code has it: a recording that is started from idle and
    stopped with no key pressed captures zero keys and commits the
    "+"-join of the keys that were shown when it started, by a second
    click on the surface or by a click elsewhere; that is the empty
    string when none was shown. *)
Theorem idle_commits_shown_keys (st : Recorder) :
  isRecording st = false ->
  keys (recorder_step ClickSurface st) = []
  /\ calls (recorder_run [ClickSurface; ClickSurface] st)
     = calls st ++ [OnChange (JS.join "+" (hotKeys st))]
  /\ calls (recorder_run [ClickSurface; ClickOutside] st)
     = calls st ++ [OnBlur; OnChange (JS.join "+" (hotKeys st))]
  /\ committed (calls (recorder_run [ClickSurface; ClickSurface] (recorder_mount None)))
     = [""; ""].
Proof.
  intros H. simpl. rewrite H. simpl.
  unfold keys_effect, idle_effect; simpl.
  repeat split.
  rewrite <- app_assoc. reflexivity.
Qed.

Lemma idle_commits_shown_keys_witness :
  isRecording (recorder_mount (Some "ctrl+k")) = false
  /\ calls (recorder_run [ClickSurface; ClickSurface] (recorder_mount (Some "ctrl+k")))
     = calls (recorder_mount (Some "ctrl+k")) ++ [OnChange "ctrl+k"].
Proof.
  split; [reflexivity|].
  apply (idle_commits_shown_keys (recorder_mount (Some "ctrl+k"))). reflexivity.
Defined.

(** C5 fails as stated: with "ctrl+k" shown, a recording that captures
    no key commits "ctrl+k", not the empty string. *)
Lemma empty_recording_keeps_hotkey :
  keys (recorder_run [ClickSurface; ClickOutside] (recorder_mount (Some "ctrl+k"))) = []
  /\ calls (recorder_run [ClickSurface; ClickOutside] (recorder_mount (Some "ctrl+k")))
     = [OnChange ""; OnBlur; OnChange "ctrl+k"]
  /\ OnChange "ctrl+k" <> OnChange "".
Proof. repeat split; try reflexivity. discriminate. Qed.

(** C6, as the code has it: a new non-empty incoming value re-seeds the
    shown keys with the pieces between "+" and "-", each trimmed, and
    without the pieces that are empty after trimming. *)
Theorem incoming_value_seeds_keys (st : Recorder) (v : string) :
  v <> "" ->
  value st <> Some v ->
  hotKeys (recorder_step (ValueProp (Some v)) st) = filter JS.truthy (spec_seed v)
  /\ parse "ctrl-k" = ["ctrl"; "k"]
  /\ parse "ctrl+k" = ["ctrl"; "k"]
  /\ parse "ctrl + k" = ["ctrl"; "k"].
Proof.
  intros Hv Hnew. split; [|repeat split].
  unfold recorder_step.
  destruct (option_string_eqb (Some v) (value st)) eqn:E.
  - apply option_string_eqb_eq in E. congruence.
  - unfold seed_effect. simpl. rewrite (truthy_nonempty v Hv). simpl.
    unfold parse, JS.filter_Boolean, spec_seed.
    rewrite split_replace. reflexivity.
Qed.

Lemma incoming_value_seeds_keys_witness :
  "ctrl - k" <> ""
  /\ value (recorder_mount None) <> Some "ctrl - k"
  /\ hotKeys (recorder_step (ValueProp (Some "ctrl - k")) (recorder_mount None))
     = filter JS.truthy (spec_seed "ctrl - k").
Proof.
  split; [discriminate|]. split; [discriminate|].
  apply (incoming_value_seeds_keys (recorder_mount None) "ctrl - k"); discriminate.
Defined.

(** C6 fails as stated: for "ctrl+" splitting and trimming give a second,
    empty key name, which the recorder does not show. *)
Lemma trailing_separator_seed :
  hotKeys (recorder_step (ValueProp (Some "ctrl+")) (recorder_mount None)) = ["ctrl"]
  /\ spec_seed "ctrl+" = ["ctrl"; ""]
  /\ hotKeys (recorder_step (ValueProp (Some "ctrl+")) (recorder_mount None))
     <> spec_seed "ctrl+".
Proof. repeat split; try reflexivity. discriminate. Qed.

(** C10: an incoming value that is absent or the empty string leaves the
    shown keys as they are, and nothing is committed. *)
Theorem falsy_value_keeps_keys (st : Recorder) :
  hotKeys (recorder_step (ValueProp None) st) = hotKeys st
  /\ hotKeys (recorder_step (ValueProp (Some "")) st) = hotKeys st
  /\ calls (recorder_step (ValueProp None) st) = calls st
  /\ calls (recorder_step (ValueProp (Some "")) st) = calls st.
Proof.
  unfold recorder_step.
  destruct (option_string_eqb None (value st));
    destruct (option_string_eqb (Some "") (value st));
    repeat split; reflexivity.
Qed.

(** *** More on the recorder *)

Import Traces.

Lemma includes_app (c : ascii) (a b : string) :
  JS.includes c (a ++ b)%string = JS.includes c a || JS.includes c b.
Proof.
  induction a as [|d a IH]; simpl; [reflexivity|].
  rewrite IH, orb_assoc. reflexivity.
Qed.

Lemma includes_join_dash (ks : list string) :
  Forall (fun k => JS.includes "-" k = false) ks ->
  JS.includes "-" (JS.join "+" ks) = false.
Proof.
  induction ks as [|k ks IH]; intros H; [reflexivity|].
  inversion H as [|? ? Hk Hks]; subst.
  destruct ks as [|k' ks']; [exact Hk|].
  change (JS.join "+" (k :: k' :: ks'))
    with (k ++ String "+" (JS.join "+" (k' :: ks')))%string.
  rewrite includes_app, Hk. simpl. apply IH. assumption.
Qed.

Lemma replace_no_dash (s : string) :
  JS.includes "-" s = false -> JS.replace_dash_plus s = s.
Proof.
  unfold JS.replace_dash_plus.
  induction s as [|c s IH]; simpl; intros H; [reflexivity|].
  apply orb_false_iff in H. destruct H as [Hc Hs].
  rewrite Hc, (IH Hs). reflexivity.
Qed.

Lemma replace_has_no_dash (s : string) :
  JS.includes "-" (JS.replace_dash_plus s) = false.
Proof.
  unfold JS.replace_dash_plus.
  induction s as [|c s IH]; simpl; [reflexivity|].
  rewrite IH, orb_false_r.
  destruct (Ascii.eqb c "-") eqn:E; [reflexivity|exact E].
Qed.

Lemma split_keeps_absent (c sep : ascii) (s : string) :
  JS.includes c s = false ->
  Forall (fun p => JS.includes c p = false) (JS.split sep s).
Proof.
  induction s as [|d s IH]; simpl; intros H.
  - constructor; [reflexivity|constructor].
  - apply orb_false_iff in H. destruct H as [Hd Hs].
    specialize (IH Hs).
    destruct (Ascii.eqb d sep).
    + constructor; [reflexivity|exact IH].
    + destruct (JS.split sep s) as [|h t].
      * constructor; [simpl; rewrite Hd; reflexivity|constructor].
      * inversion IH; subst. constructor; [|assumption].
        simpl. rewrite Hd. assumption.
Qed.

Lemma trimStart_clean (s : string) : starts_clean (JS.trimStart s) = true.
Proof.
  induction s as [|c s IH]; simpl; [reflexivity|].
  destruct (JS.is_whitespace c) eqn:E; [exact IH|].
  simpl. rewrite E. reflexivity.
Qed.

Lemma trimStart_of_clean (s : string) :
  starts_clean s = true -> JS.trimStart s = s.
Proof.
  destruct s as [|c s]; simpl; [reflexivity|].
  intros H. apply negb_true_iff in H. rewrite H. reflexivity.
Qed.

Lemma trimEnd_clean (s : string) :
  starts_clean s = true -> starts_clean (JS.trimEnd s) = true.
Proof.
  destruct s as [|c s]; simpl; [reflexivity|].
  intros H. apply negb_true_iff in H.
  destruct (JS.trimEnd s); [rewrite H|]; simpl; rewrite H; reflexivity.
Qed.

Lemma trimEnd_idem (s : string) : JS.trimEnd (JS.trimEnd s) = JS.trimEnd s.
Proof.
  induction s as [|c s IH]; simpl; [reflexivity|].
  destruct (JS.trimEnd s) as [|d t] eqn:E.
  - destruct (JS.is_whitespace c) eqn:W; simpl; [reflexivity|].
    rewrite W. reflexivity.
  - change (JS.trimEnd (String c (String d t)))
      with (match JS.trimEnd (String d t) with
            | EmptyString => if JS.is_whitespace c then EmptyString
                             else String c EmptyString
            | u => String c u
            end).
    rewrite IH. reflexivity.
Qed.

(** Trimming a trimmed string changes nothing. *)
Lemma trim_idem (s : string) : JS.trim (JS.trim s) = JS.trim s.
Proof.
  unfold JS.trim.
  rewrite (trimStart_of_clean (JS.trimEnd (JS.trimStart s))).
  - apply trimEnd_idem.
  - apply trimEnd_clean, trimStart_clean.
Qed.

Lemma seedable_parts (k : string) :
  seedable k = true ->
  JS.truthy k = true /\ JS.includes "+" k = false
  /\ JS.includes "-" k = false /\ JS.trim k = k.
Proof.
  unfold seedable. rewrite !andb_true_iff, !negb_true_iff, String.eqb_eq.
  intros [[[? ?] ?] ?]. repeat split; assumption.
Qed.

Lemma parse_seedable (v : string) :
  Forall (fun k => seedable k = true) (parse v).
Proof.
  pose proof (parse_single v) as Hplus. rewrite Forall_forall in Hplus.
  apply Forall_forall. intros k Hk.
  specialize (Hplus k Hk).
  unfold parse, JS.filter_Boolean in Hk.
  apply filter_In in Hk. destruct Hk as [Hk Ht].
  apply in_map_iff in Hk. destruct Hk as [p [<- Hp]].
  unfold seedable. rewrite Ht, Hplus, trim_idem, String.eqb_refl. simpl.
  rewrite andb_true_r. apply negb_true_iff.
  apply includes_trim.
  pose proof (split_keeps_absent "-" "+" (JS.replace_dash_plus v)
                (replace_has_no_dash v)) as Hd.
  rewrite Forall_forall in Hd. apply Hd. exact Hp.
Qed.

Lemma parse_join_parts (ks : list string) :
  Forall (fun k => JS.truthy k = true
                   /\ JS.includes "+" k = false
                   /\ JS.includes "-" k = false
                   /\ JS.trim k = k) ks ->
  parse (JS.join "+" ks) = ks.
Proof.
  intros Hparts.
  unfold parse, JS.filter_Boolean.
  rewrite replace_no_dash.
  2:{ apply includes_join_dash. eapply Forall_impl; [|exact Hparts].
      intros k (_ & _ & Hd & _). exact Hd. }
  destruct ks as [|k ks]; [reflexivity|].
  rewrite (split_join "+"%char (k :: ks)); [|discriminate|].
  2:{ eapply Forall_impl; [|exact Hparts]. intros x (_ & Hp & _). exact Hp. }
  induction Hparts as [|x xs (Ht & _ & _ & Htrim) _ IH]; [reflexivity|].
  simpl. rewrite Htrim, Ht, IH. reflexivity.
Qed.

(** X1: a list of key names that are not empty, contain neither "+" nor
    "-" and have no white space at their ends comes back unchanged when
    its "+"-join is parsed as an incoming value. *)
Theorem parse_join_roundtrip (ks : list string) :
  Forall (fun k => seedable k = true) ks ->
  parse (JS.join "+" ks) = ks.
Proof.
  intros H. apply parse_join_parts.
  eapply Forall_impl; [|exact H]. intros k. apply seedable_parts.
Qed.

Lemma parse_join_roundtrip_witness :
  Forall (fun k => seedable k = true) ["ctrl"; "shift"; "k"]
  /\ parse (JS.join "+" ["ctrl"; "shift"; "k"]) = ["ctrl"; "shift"; "k"].
Proof.
  split; [repeat constructor|].
  apply (parse_join_roundtrip ["ctrl"; "shift"; "k"]). repeat constructor.
Defined.

(** X2: seeding is stable: the keys seeded from any incoming value, joined
    with "+" and taken as an incoming value again, seed the same keys. *)
Theorem parse_join_parse (v : string) :
  parse (JS.join "+" (parse v)) = parse v.
Proof.
  apply parse_join_parts.
  eapply Forall_impl; [|exact (parse_seedable v)].
  intros k. apply seedable_parts.
Qed.

Lemma recorder_run_app (a b : list recorder_event) (st : Recorder) :
  recorder_run (a ++ b) st = recorder_run b (recorder_run a st).
Proof.
  revert st. induction a as [|e a IH]; intros st; simpl; [reflexivity|].
  apply IH.
Qed.

Lemma set_add_not_nil (k : string) (s : list string) :
  (0 <? length (JS.set_add k s)) = true.
Proof.
  unfold JS.set_add. destruct (existsb (String.eqb k) s) eqn:E.
  - destruct s; [discriminate|reflexivity].
  - rewrite length_app. simpl. apply Nat.ltb_lt. lia.
Qed.

(** A key press while recording, as one state. *)
Lemma keydown_state (st : Recorder) (k : string) :
  isRecording st = true ->
  recorder_step (KeyDown k) st
  = mkRecorder (JS.set_add k (keys st)) true
      (filter not_meta (JS.set_add k (keys st))) (value st)
      (calls st
       ++ [OnChange (JS.join "+"
                       (filter not_meta (JS.set_add k (keys st))))]).
Proof.
  intros H. unfold recorder_step. rewrite H.
  unfold keys_effect, add_key. cbn [keys].
  rewrite set_add_not_nil. unfold emit, setHotKeys. cbn. rewrite H.
  reflexivity.
Qed.

(** After at least one key press in a recording, the keys shown are the
    keys pressed without meta, and they were the last value committed. *)
Lemma keys_run (ks : list string) (st : Recorder) :
  isRecording st = true ->
  ks <> [] ->
  let st' := recorder_run (map KeyDown ks) st in
  isRecording st' = true
  /\ keys st' = pressed ks (keys st)
  /\ hotKeys st' = filter not_meta (keys st')
  /\ exists pre, calls st' = pre ++ [OnChange (JS.join "+" (hotKeys st'))].
Proof.
  revert st. induction ks as [|k ks IH]; intros st Hrec Hne; [congruence|].
  cbn [map recorder_run]. rewrite (keydown_state st k Hrec).
  destruct ks as [|k' ks'].
  - cbn. repeat split. eexists. reflexivity.
  - specialize (IH (mkRecorder (JS.set_add k (keys st)) true
                      (filter not_meta (JS.set_add k (keys st))) (value st)
                      (calls st
                       ++ [OnChange (JS.join "+"
                             (filter not_meta (JS.set_add k (keys st))))]))
                   eq_refl ltac:(discriminate)).
    exact IH.
Qed.

Lemma start_state (st : Recorder) :
  isRecording st = false ->
  recorder_step ClickSurface st
  = mkRecorder [] true (hotKeys st) (value st) (calls st).
Proof.
  intros H. unfold recorder_step. rewrite H. reflexivity.
Qed.

Lemma last_committed_change (pre : list recorder_call) (v d : string) :
  last (committed (pre ++ [OnChange v])) d = v.
Proof. rewrite committed_app. simpl. apply last_last. Qed.

Lemma stop_state (st : Recorder) (stop : recorder_event) :
  isRecording st = true ->
  is_stop stop = true ->
  let st' := recorder_step stop st in
  isRecording st' = false
  /\ hotKeys st' = hotKeys st
  /\ exists pre, calls st' = pre ++ [OnChange (JS.join "+" (hotKeys st))].
Proof.
  intros Hrec Hstop.
  destruct stop; try discriminate Hstop;
    unfold recorder_step; rewrite Hrec; cbn;
    repeat split; eexists; reflexivity.
Qed.

Lemma pressed_In (ks s : list string) (x : string) :
  In x (pressed ks s) -> In x s \/ In x ks.
Proof.
  revert s. induction ks as [|k ks IH]; intros s H; [left; exact H|].
  cbn in H. apply IH in H. destruct H as [H|H]; [|right; right; exact H].
  unfold JS.set_add in H.
  destruct (existsb (String.eqb k) s); [left; exact H|].
  apply in_app_or in H. destruct H as [H|[<-|[]]];
    [left; exact H|right; left; reflexivity].
Qed.

(** X3: a recording started from idle in which at least one key is
    pressed, stopped by a click on the surface or elsewhere, ends idle,
    shows the pressed keys in the order of their first press without the
    meta keys, and the last value it committed is their "+"-join. *)
Theorem recording_commits_pressed_keys
        (st : Recorder) (ks : list string) (stop : recorder_event) :
  isRecording st = false ->
  ks <> [] ->
  is_stop stop = true ->
  let st' := recorder_run (ClickSurface :: map KeyDown ks ++ [stop]) st in
  isRecording st' = false
  /\ hotKeys st' = filter not_meta (pressed ks [])
  /\ last (committed (calls st')) "" = JS.join "+" (hotKeys st').
Proof.
  intros Hidle Hne Hstop.
  cbn [recorder_run]. rewrite (start_state st Hidle), recorder_run_app.
  destruct (keys_run ks (mkRecorder [] true (hotKeys st) (value st)
                                    (calls st)) eq_refl Hne)
    as (Hrec & Hkeys & Hhot & _).
  cbn [recorder_run].
  destruct (stop_state _ stop Hrec Hstop) as (Hidle' & Hsame & pre & Hcalls).
  split; [exact Hidle'|].
  split; [rewrite Hsame, Hhot, Hkeys; reflexivity|].
  rewrite Hcalls, Hsame. apply last_committed_change.
Qed.

Lemma recording_commits_pressed_keys_witness :
  isRecording (recorder_mount (Some "alt+x")) = false
  /\ ["ctrl"; "meta"; "k"; "ctrl"] <> []
  /\ is_stop ClickOutside = true
  /\ hotKeys (recorder_run
                (ClickSurface
                   :: map KeyDown ["ctrl"; "meta"; "k"; "ctrl"]
                   ++ [ClickOutside])
                (recorder_mount (Some "alt+x")))
     = filter not_meta (pressed ["ctrl"; "meta"; "k"; "ctrl"] []).
Proof.
  split; [reflexivity|]. split; [discriminate|]. split; [reflexivity|].
  apply (recording_commits_pressed_keys (recorder_mount (Some "alt+x"))
           ["ctrl"; "meta"; "k"; "ctrl"] ClickOutside);
    [reflexivity|discriminate|reflexivity].
Defined.

(** X4: a recording started from idle in which only meta keys are pressed
    clears the keys shown, whatever they were, and commits the empty
    string. *)
Theorem meta_only_recording_clears
        (st : Recorder) (ks : list string) :
  isRecording st = false ->
  ks <> [] ->
  forallb (fun k => negb (not_meta k)) ks = true ->
  let st' := recorder_run (ClickSurface :: map KeyDown ks) st in
  hotKeys st' = []
  /\ last (committed (calls st')) "meta" = "".
Proof.
  intros Hidle Hne Hmeta.
  cbn [recorder_run]. rewrite (start_state st Hidle).
  destruct (keys_run ks (mkRecorder [] true (hotKeys st) (value st)
                                    (calls st)) eq_refl Hne)
    as (_ & Hkeys & Hhot & pre & Hcalls).
  cbn [keys] in Hkeys.
  assert (Hnil : filter not_meta (pressed ks []) = []).
  { destruct (filter not_meta (pressed ks [])) as [|x xs] eqn:E;
      [reflexivity|].
    assert (Hin : In x (filter not_meta (pressed ks [])))
      by (rewrite E; left; reflexivity).
    apply filter_In in Hin. destruct Hin as [Hin Hx].
    apply pressed_In in Hin. destruct Hin as [[]|Hin].
    rewrite forallb_forall in Hmeta. specialize (Hmeta x Hin).
    rewrite Hx in Hmeta. discriminate. }
  rewrite Hkeys, Hnil in Hhot.
  split; [exact Hhot|].
  rewrite Hcalls, Hhot. apply last_committed_change.
Qed.

Lemma meta_only_recording_clears_witness :
  isRecording (recorder_mount (Some "ctrl+k")) = false
  /\ ["Meta"] <> []
  /\ forallb (fun k => negb (not_meta k)) ["Meta"] = true
  /\ hotKeys (recorder_run (ClickSurface :: map KeyDown ["Meta"])
                           (recorder_mount (Some "ctrl+k"))) = [].
Proof.
  split; [reflexivity|]. split; [discriminate|]. split; [reflexivity|].
  apply (meta_only_recording_clears (recorder_mount (Some "ctrl+k"))
           ["Meta"]); [reflexivity|discriminate|reflexivity].
Defined.

Lemma blurs_emit_change (st : Recorder) (v : string) :
  filter is_blur (calls (emit (OnChange v) st)) = filter is_blur (calls st).
Proof. cbn. rewrite filter_app. cbn. apply app_nil_r. Qed.

Lemma blurs_keys_effect (st : Recorder) :
  filter is_blur (calls (keys_effect st)) = filter is_blur (calls st).
Proof.
  unfold keys_effect. destruct (0 <? length (keys st)); [|reflexivity].
  rewrite blurs_emit_change. reflexivity.
Qed.

Lemma blurs_idle_effect (st : Recorder) :
  filter is_blur (calls (idle_effect st)) = filter is_blur (calls st).
Proof.
  unfold idle_effect. destruct (negb (isRecording st)); [|reflexivity].
  apply blurs_emit_change.
Qed.

Lemma calls_seed_effect (st : Recorder) : calls (seed_effect st) = calls st.
Proof.
  unfold seed_effect. destruct (value st) as [v|]; [|reflexivity].
  destruct (JS.truthy v); reflexivity.
Qed.

Lemma blurs_step (e : recorder_event) (st : Recorder) :
  not_outside e = true ->
  filter is_blur (calls (recorder_step e st)) = filter is_blur (calls st).
Proof.
  intros He. destruct e as [| |k|v]; try discriminate He;
    unfold recorder_step.
  - destruct (negb (isRecording st)).
    + rewrite blurs_idle_effect, blurs_keys_effect. reflexivity.
    + rewrite blurs_idle_effect. reflexivity.
  - destruct (isRecording st); [|reflexivity].
    rewrite blurs_keys_effect. reflexivity.
  - destruct (option_string_eqb v (value st)); [reflexivity|].
    rewrite calls_seed_effect. reflexivity.
Qed.

(** X5: the recorder signals blur only from the document-level click
    listener. Whatever clicks on the surface, key presses and incoming
    values it gets, no call of onBlur is added; in particular a
    recording stopped by a second click on the surface commits its value
    without a blur. A click elsewhere adds one call while recording and
    none while idle. *)
Theorem blur_only_from_outside_click
        (es : list recorder_event) (st st0 : Recorder) :
  forallb not_outside es = true ->
  filter is_blur (calls (recorder_run es st)) = filter is_blur (calls st)
  /\ length (filter is_blur (calls (recorder_step ClickOutside st0)))
     = length (filter is_blur (calls st0))
       + (if isRecording st0 then 1 else 0).
Proof.
  intros Hes. split.
  - revert st. induction es as [|e es IH]; intros st; [reflexivity|].
    cbn in Hes. apply andb_true_iff in Hes. destruct Hes as [He Hes].
    cbn [recorder_run]. rewrite (IH Hes). apply blurs_step. exact He.
  - unfold recorder_step. destruct (isRecording st0); [|lia].
    rewrite blurs_idle_effect. cbn. rewrite filter_app, length_app.
    reflexivity.
Qed.

Lemma blur_only_from_outside_click_witness :
  forallb not_outside
    [ClickSurface; KeyDown "ctrl"; KeyDown "k"; ClickSurface] = true
  /\ filter is_blur
       (calls (recorder_run
                 [ClickSurface; KeyDown "ctrl"; KeyDown "k"; ClickSurface]
                 (recorder_mount None)))
     = filter is_blur (calls (recorder_mount None)).
Proof.
  split; [reflexivity|].
  apply (blur_only_from_outside_click
           [ClickSurface; KeyDown "ctrl"; KeyDown "k"; ClickSurface]
           (recorder_mount None) (recorder_mount None)).
  reflexivity.
Defined.

(** X6: an idle recorder ignores key presses and clicks elsewhere: any
    number of them leaves the keys shown, the recording flag and the
    calls made so far exactly as they are. *)
Theorem idle_ignores_keys (es : list recorder_event) (st : Recorder) :
  isRecording st = false ->
  forallb key_or_outside es = true ->
  recorder_run es st = st.
Proof.
  intros Hidle. induction es as [|e es IH]; intros Hes; [reflexivity|].
  cbn in Hes. apply andb_true_iff in Hes. destruct Hes as [He Hes].
  cbn [recorder_run].
  assert (Hstep : recorder_step e st = st).
  { destruct e; try discriminate He; unfold recorder_step;
      rewrite Hidle; reflexivity. }
  rewrite Hstep. apply IH. exact Hes.
Qed.

Lemma idle_ignores_keys_witness :
  isRecording (recorder_mount (Some "ctrl+k")) = false
  /\ forallb key_or_outside [KeyDown "a"; ClickOutside; KeyDown "meta"]
     = true
  /\ recorder_run [KeyDown "a"; ClickOutside; KeyDown "meta"]
                  (recorder_mount (Some "ctrl+k"))
     = recorder_mount (Some "ctrl+k").
Proof.
  split; [reflexivity|]. split; [reflexivity|].
  apply (idle_ignores_keys [KeyDown "a"; ClickOutside; KeyDown "meta"]
           (recorder_mount (Some "ctrl+k"))); reflexivity.
Defined.

Lemma isRecording_keys_effect (st : Recorder) :
  isRecording (keys_effect st) = isRecording st.
Proof.
  unfold keys_effect. destruct (0 <? length (keys st)); reflexivity.
Qed.

Lemma isRecording_idle_effect (st : Recorder) :
  isRecording (idle_effect st) = isRecording st.
Proof.
  unfold idle_effect. destruct (negb (isRecording st)); reflexivity.
Qed.

Lemma isRecording_seed_effect (st : Recorder) :
  isRecording (seed_effect st) = isRecording st.
Proof.
  unfold seed_effect. destruct (value st) as [v|]; [|reflexivity].
  destruct (JS.truthy v); reflexivity.
Qed.

(** X7: the two states of the recorder. A click on the surface switches
    between idle and recording, and starting empties the set of pressed
    keys; a click elsewhere always ends idle; key presses and incoming
    values never change the state. *)
Theorem recording_transitions
        (st : Recorder) (k : string) (v : option string) :
  isRecording (recorder_step ClickSurface st) = negb (isRecording st)
  /\ (if isRecording st then keys (recorder_step ClickSurface st) = keys st
      else keys (recorder_step ClickSurface st) = [])
  /\ isRecording (recorder_step ClickOutside st) = false
  /\ isRecording (recorder_step (KeyDown k) st) = isRecording st
  /\ isRecording (recorder_step (ValueProp v) st) = isRecording st.
Proof.
  unfold recorder_step. repeat split.
  - destruct (isRecording st) eqn:E; cbn [negb];
      rewrite isRecording_idle_effect, ?isRecording_keys_effect;
      reflexivity.
  - destruct (isRecording st) eqn:E; cbn [negb].
    + unfold idle_effect. reflexivity.
    + reflexivity.
  - destruct (isRecording st) eqn:E; [|exact E].
    rewrite isRecording_idle_effect. reflexivity.
  - destruct (isRecording st) eqn:E; [|exact E].
    rewrite isRecording_keys_effect. exact E.
  - destruct (option_string_eqb v (value st)); [reflexivity|].
    rewrite isRecording_seed_effect. reflexivity.
Qed.

End RecorderFacts.

(** ** Settings *)

Section SettingsFacts.
Import utils Settings.
Local Open Scope list_scope.

Lemma skipn_length_app {A : Type} (l x : list A) :
  skipn (length l) (l ++ x) = x.
Proof. induction l as [|a l IH]; simpl; [reflexivity|exact IH]. Qed.

Lemma TranslateMode_eqb_eq (a b : TranslateMode) :
  TranslateMode_eqb a b = true <-> a = b.
Proof. destruct a, b; simpl; split; congruence. Qed.

(** [_.isEqual] decides equality of settings records. *)
Lemma isEqual_eq (a b : ISettings) : isEqual a b = true <-> a = b.
Proof.
  destruct a, b. unfold isEqual. simpl.
  rewrite !andb_true_iff, !String.eqb_eq, Bool.eqb_true_iff,
    TranslateMode_eqb_eq.
  split.
  - intros [[[[[? ?] ?] ?] ?] ?]. congruence.
  - intros H. injection H. intros. repeat split; assumption.
Qed.

(** Running a handler on a state given field by field. Evaluation is by
    value, so that a state is built before the next update reads it. *)
Ltac handler_eval :=
  cbv beta iota delta
    [new_effects step handler checkbox_calls checkbox_call
     AutoTranslateCheckbox.handleChange onSubmmit onBlur onChange loaded
     await_setSettings toast call_onSave perform write setLoading
     setValues setPrevValues bind ret render fst snd
     props loading values prevValues values_changed onBlur_memo stored log
     c_values c_prevValues has_onSave].

Ltac handler_cases st :=
  let ch := fresh "changed" in
  destruct st as [[given] ? ? ? ch [? ?] ? ?]; destruct ch; handler_eval.

Ltac guard_cases :=
  match goal with
  | |- context [JS.truthy ?k && negb (isEqual ?a ?b)] =>
      destruct (JS.truthy k && negb (isEqual a b))
  end.

Ltac log_tail :=
  rewrite <- ?app_assoc; cbn [app];
  rewrite ?skipn_length_app, ?skipn_all.

(** What a blur does is decided by the closure the fields hold. *)
Lemma blur_effects (st : State) (r : settled) :
  new_effects (FieldBlur r) st
  = if JS.truthy (apiKeys (c_values (onBlur_memo st)))
       && negb (isEqual (c_values (onBlur_memo st))
                        (c_prevValues (onBlur_memo st)))
    then [CallSetSettings (c_values (onBlur_memo st))]
    else [].
Proof.
  handler_cases st; guard_cases; destruct r; handler_eval; log_tail;
    reflexivity.
Qed.

(** A blur whose guard passes and whose write resolves moves the
    baseline to the snapshot it wrote. *)
Lemma blur_updates_baseline (st : State) :
  JS.truthy (apiKeys (c_values (onBlur_memo st)))
  && negb (isEqual (c_values (onBlur_memo st))
                   (c_prevValues (onBlur_memo st))) = true ->
  prevValues (step (FieldBlur Resolved) st) = c_values (onBlur_memo st)
  /\ stored (step (FieldBlur Resolved) st)
     = Some (c_values (onBlur_memo st)).
Proof.
  handler_cases st; intros H; rewrite H; handler_eval; split; reflexivity.
Qed.

(** A blur whose guard fails, or whose write is rejected, leaves the
    stored record and the baseline as they are. *)
Lemma blur_noop (st : State) (r : settled) :
  JS.truthy (apiKeys (c_values (onBlur_memo st)))
  && negb (isEqual (c_values (onBlur_memo st))
                   (c_prevValues (onBlur_memo st))) = false
  \/ r = Rejected ->
  prevValues (step (FieldBlur r) st) = prevValues st
  /\ stored (step (FieldBlur r) st) = stored st.
Proof.
  handler_cases st; intros [H| ->].
  all: try (rewrite H; handler_eval; split; reflexivity).
  all: guard_cases; handler_eval; split; reflexivity.
Qed.

(** The closure the fields hold after a blur is the one they held
    before: the baseline it closes over is not the new one. *)
Lemma blur_keeps_closure (st : State) (r : settled) :
  values_changed st = false ->
  onBlur_memo (step (FieldBlur r) st) = onBlur_memo st.
Proof.
  handler_cases st; intros H; try discriminate H.
  guard_cases; destruct r; handler_eval; reflexivity.
Qed.

(** C1 on the code: the settings arrive, a field is edited and blurred
    (one write, the baseline becomes the written snapshot), and the
    same field is blurred again with nothing changed. The snapshot then
    equals the baseline and the stored record, and the second blur
    writes it once more. *)
Theorem second_blur_writes_again :
  let st := run [LoadResolved persisted; FieldChange edited;
                 FieldBlur Resolved] mounted in
  values st = edited
  /\ prevValues st = edited
  /\ stored st = Some edited
  /\ isEqual (values st) (prevValues st) = true
  /\ new_effects (FieldBlur Resolved) st = [CallSetSettings edited].
Proof. repeat split; vm_compute; reflexivity. Qed.

(** C2, as the code has it: every submit with data [d] calls setSettings
    with [d]. When that write resolves, [d] is stored, then the toast
    'Saved' is shown for 3000 milliseconds, then the onSave callback, if
    the form was given one, is called once with [d], in that order, and
    nothing else is done to the collaborators. When the write is
    rejected, the call of setSettings is all there is: no toast, no call
    of onSave, and the stored record is unchanged. *)
Theorem submit_effects_by_outcome (st : State) (d : ISettings) :
  new_effects (Submit d Resolved) st
  = [CallSetSettings d; CallToast "Saved" thumbs_up 3000%Z]
    ++ (if has_onSave (props st) then [CallOnSave d] else [])
  /\ stored (step (Submit d Resolved) st) = Some d
  /\ new_effects (Submit d Rejected) st = [CallSetSettings d]
  /\ stored (step (Submit d Rejected) st) = stored st.
Proof.
  handler_cases st.
  all: destruct given.
  all: handler_eval; log_tail; repeat split; reflexivity.
Qed.

(** C2 fails as stated: a submit whose write is rejected shows no toast
    and does not call onSave, and a submit of a form that was given no
    onSave callback calls none. *)
Lemma submit_without_toast_or_onSave :
  new_effects (Submit persisted Rejected) mounted
  = [CallSetSettings persisted]
  /\ new_effects (Submit persisted Resolved)
       (mount "https://api.openai.com" false "zh-Hans" (mkProps false))
     = [CallSetSettings persisted; CallToast "Saved" thumbs_up 3000%Z]
  /\ new_effects (Submit persisted Rejected) mounted
     <> [CallSetSettings persisted; CallToast "Saved" thumbs_up 3000%Z;
         CallOnSave persisted]
  /\ new_effects (Submit persisted Resolved)
       (mount "https://api.openai.com" false "zh-Hans" (mkProps false))
     <> [CallSetSettings persisted; CallToast "Saved" thumbs_up 3000%Z;
         CallOnSave persisted].
Proof.
  split; [reflexivity|]. split; [reflexivity|].
  split; vm_compute; discriminate.
Qed.

(** C3, as the code has it: when the write of a submit resolves, the
    loading flag is false afterwards. When it is rejected, the rejection
    leaves the handler uncaught and nothing after the await runs: the
    loading flag stays true, no toast is shown, onSave is not called,
    and the stored record is unchanged. *)
Theorem submit_loading_after_write (st : State) (d : ISettings) :
  loading (step (Submit d Resolved) st) = false
  /\ loading (step (Submit d Rejected) st) = true
  /\ fst (onSubmmit Rejected d st) = Thrown
  /\ new_effects (Submit d Rejected) st = [CallSetSettings d]
  /\ stored (step (Submit d Rejected) st) = stored st.
Proof.
  handler_cases st.
  all: destruct given.
  all: handler_eval; log_tail; repeat split; reflexivity.
Qed.

(** C3 fails as stated: after a submit whose write is rejected the
    loading flag is still set. *)
Lemma rejected_submit_keeps_loading :
  loading (step (Submit persisted Rejected) mounted) = true
  /\ loading (step (Submit persisted Rejected) mounted) <> false.
Proof. split; [reflexivity|discriminate]. Qed.

(** Blurs and submits before any edit leave the first snapshot alone:
    its API key is empty, so the guard of every blur fails. *)
Lemma no_edit_step (e : event) (st : State) (v0 : ISettings) :
  no_edit v0 e = true ->
  apiKeys v0 = "" ->
  values st = v0 /\ prevValues st = v0 /\ c_values (onBlur_memo st) = v0 ->
  values (step e st) = v0 /\ prevValues (step e st) = v0
  /\ c_values (onBlur_memo (step e st)) = v0.
Proof.
  intros He Hk.
  destruct e as [s|v|r|b r|d r]; try discriminate He.
  - apply isEqual_eq in He. subst v.
    handler_cases st; intros (_ & -> & _); repeat split; reflexivity.
  - handler_cases st; intros (-> & -> & ->); rewrite Hk;
      handler_eval; repeat split; reflexivity.
  - handler_cases st; intros (-> & -> & ->); destruct r.
    all: destruct given.
    all: handler_eval; repeat split; reflexivity.
Qed.

Lemma no_edit_run (es : list event) (st : State) (v0 : ISettings) :
  forallb (no_edit v0) es = true ->
  apiKeys v0 = "" ->
  values st = v0 /\ prevValues st = v0 /\ c_values (onBlur_memo st) = v0 ->
  values (run es st) = v0 /\ prevValues (run es st) = v0.
Proof.
  revert st. induction es as [|e es IH]; simpl; intros st Hes Hk H.
  - destruct H as (? & ? & ?). split; assumption.
  - apply andb_true_iff in Hes. destruct Hes as [He Hes].
    apply IH; [assumption|assumption|].
    apply no_edit_step; assumption.
Qed.

(** C7: the mounted form holds the built-in defaults (empty API key, the
    default URL, the default auto-translate flag, the mode translate, the
    default target language, empty hotkey) as snapshot and as baseline,
    and keeps them through blurs, submits and change reports with the
    same values, as long as no field is edited; when the settings arrive
    as [s], the snapshot and the baseline are both [s]. *)
Theorem defaults_until_loaded
        (url : string) (auto : bool) (lang : string) (p : IPopupProps)
        (es : list event) (st : State) (s : ISettings) :
  forallb (no_edit (mkSettings "" url auto translate lang "")) es = true ->
  values (mount url auto lang p) = mkSettings "" url auto translate lang ""
  /\ prevValues (mount url auto lang p)
     = mkSettings "" url auto translate lang ""
  /\ values (run es (mount url auto lang p))
     = mkSettings "" url auto translate lang ""
  /\ prevValues (run es (mount url auto lang p))
     = mkSettings "" url auto translate lang ""
  /\ values (step (LoadResolved s) st) = s
  /\ prevValues (step (LoadResolved s) st) = s.
Proof.
  intros Hes.
  split; [reflexivity|]. split; [reflexivity|].
  rewrite <- and_assoc. split.
  - apply no_edit_run; [assumption|reflexivity|].
    repeat split; reflexivity.
  - handler_cases st; split; reflexivity.
Qed.

Lemma defaults_until_loaded_witness :
  forallb (no_edit (values mounted))
          [FieldChange (values mounted); FieldBlur Resolved;
           Submit persisted Rejected] = true
  /\ values (run [FieldChange (values mounted); FieldBlur Resolved;
                  Submit persisted Rejected] mounted)
     = mkSettings "" "https://api.openai.com" false translate "zh-Hans" ""
  /\ values (step (LoadResolved persisted) mounted) = persisted
  /\ prevValues (step (LoadResolved persisted) mounted) = persisted.
Proof.
  split; [reflexivity|].
  destruct (defaults_until_loaded "https://api.openai.com" false "zh-Hans"
              (mkProps true)
              [FieldChange (values mounted); FieldBlur Resolved;
               Submit persisted Rejected]
              mounted persisted eq_refl)
    as (_ & _ & Hv & _ & Hl & Hp).
  split; [exact Hv|]. split; [exact Hl|exact Hp].
Defined.

(** What a toggle does to the storage is decided by the closure the
    checkbox held before the toggle: the write, if there is one, carries
    the snapshot from before the toggle. *)
Lemma toggle_effects (st : State) (checked : bool) (r : settled) :
  new_effects (CheckboxToggle checked r) st = new_effects (FieldBlur r) st
  /\ values (step (CheckboxToggle checked r) st)
     = with_autoTranslate checked (values st).
Proof.
  handler_cases st; guard_cases; destruct r; handler_eval;
    split; reflexivity.
Qed.

(** C8 on the code: the checkbox calls onChange with the new flag and
    then onBlur, in one handler. With the persisted settings loaded and
    auto-translate switched on, the snapshot becomes the toggled one and
    differs from the baseline, with a non-empty API key, yet nothing is
    written: the onBlur that ran compared the snapshot from before the
    toggle. After an edit, the toggle writes the snapshot from before
    the toggle, not the toggled one. *)
Theorem toggle_blur_sees_old_snapshot :
  let st := step (LoadResolved persisted) mounted in
  let st' := step (CheckboxToggle true Resolved) st in
  AutoTranslateCheckbox.handleChange true
  = [AutoTranslateCheckbox.ToggleOnChange true; AutoTranslateCheckbox.ToggleOnBlur]
  /\ values st' = with_autoTranslate true persisted
  /\ JS.truthy (apiKeys (values st')) = true
  /\ isEqual (values st') (prevValues st') = false
  /\ new_effects (CheckboxToggle true Resolved) st = []
  /\ stored st' = None
  /\ new_effects (CheckboxToggle true Resolved)
                 (step (FieldChange edited) st)
     = [CallSetSettings edited]
  /\ autoTranslate edited = false.
Proof. repeat split; vm_compute; reflexivity. Qed.

Lemma submit_frame (st : State) (d : ISettings) (r : settled) :
  prevValues (step (Submit d r) st) = prevValues st
  /\ values (step (Submit d r) st) = values st
  /\ onBlur_memo (step (Submit d r) st) = onBlur_memo (render st).
Proof.
  handler_cases st; destruct r.
  all: destruct given.
  all: handler_eval; repeat split; reflexivity.
Qed.

(** C9: a submit, whatever its outcome, leaves the baseline as it is, and
    so does an edit; a later blur decides as it would have without the
    submit. So there is a run in which a submit stores the snapshot and
    the blur that follows writes the same snapshot again, moving the
    baseline only then. *)
Theorem submit_keeps_baseline :
  (forall st d r, prevValues (step (Submit d r) st) = prevValues st)
  /\ (forall st v, prevValues (step (FieldChange v) st) = prevValues st)
  /\ (forall st d r r',
         new_effects (FieldBlur r') (step (Submit d r) st)
         = new_effects (FieldBlur r') (render st))
  /\ (let st := run [LoadResolved persisted; FieldChange edited] mounted in
      let st' := step (Submit edited Resolved) st in
      values st = edited
      /\ stored st' = Some edited
      /\ prevValues st' = persisted
      /\ new_effects (FieldBlur Resolved) st' = [CallSetSettings edited]
      /\ prevValues (step (FieldBlur Resolved) st') = edited).
Proof.
  split; [intros; apply submit_frame|].
  split; [intros st v; handler_cases st; reflexivity|].
  split; [|repeat split; vm_compute; reflexivity].
  intros st d r r'. rewrite !blur_effects.
  destruct (submit_frame st d r) as (_ & _ & ->). reflexivity.
Qed.

(** *** More on the form *)

Import Traces.

(** Every event only appends to the log, and what it appends is read off
    the closure the fields hold and the outcome of the write. *)
Lemma log_step (e : event) (st : State) :
  log (step e st) = log st ++ effects_of e st.
Proof.
  unfold effects_of, guard.
  destruct e as [s|v|r|b r|d r].
  - handler_cases st; rewrite app_nil_r; reflexivity.
  - handler_cases st; rewrite app_nil_r; reflexivity.
  - handler_cases st; guard_cases; destruct r; handler_eval;
      rewrite ?app_nil_r; reflexivity.
  - handler_cases st; guard_cases; destruct r; handler_eval;
      rewrite ?app_nil_r; reflexivity.
  - handler_cases st; destruct r; destruct given; handler_eval;
      rewrite <- ?app_assoc; reflexivity.
Qed.

Lemma new_effects_step (e : event) (st : State) :
  new_effects e st = effects_of e st.
Proof.
  unfold new_effects. rewrite log_step. apply skipn_length_app.
Qed.

Lemma props_step (e : event) (st : State) : props (step e st) = props st.
Proof.
  destruct e as [s|v|r|b r|d r].
  - handler_cases st; reflexivity.
  - handler_cases st; reflexivity.
  - handler_cases st; guard_cases; destruct r; reflexivity.
  - handler_cases st; guard_cases; destruct r; reflexivity.
  - handler_cases st; destruct r; destruct given; reflexivity.
Qed.

Lemma loading_step (e : event) (st : State) :
  loading (step e st)
  = match e with
    | Submit _ Resolved => false
    | Submit _ Rejected => true
    | _ => loading st
    end.
Proof.
  destruct e as [s|v|r|b r|d r].
  - handler_cases st; reflexivity.
  - handler_cases st; reflexivity.
  - handler_cases st; guard_cases; destruct r; reflexivity.
  - handler_cases st; guard_cases; destruct r; reflexivity.
  - handler_cases st; destruct r; destruct given; reflexivity.
Qed.

(** After an event the fields hold an onBlur that closes over the
    current values. *)
Lemma fresh_step (e : event) (st : State) :
  values_changed st = false /\ c_values (onBlur_memo st) = values st ->
  values_changed (step e st) = false
  /\ c_values (onBlur_memo (step e st)) = values (step e st).
Proof.
  destruct e as [s|v|r|b r|d r].
  - handler_cases st; intros [H ->]; try discriminate H;
      split; reflexivity.
  - handler_cases st; intros [H ->]; try discriminate H;
      split; reflexivity.
  - handler_cases st; intros [H ->]; try discriminate H;
      guard_cases; destruct r; split; reflexivity.
  - handler_cases st; intros [H ->]; try discriminate H;
      guard_cases; destruct r; split; reflexivity.
  - handler_cases st; intros [H ->]; try discriminate H;
      destruct r; destruct given; split; reflexivity.
Qed.

Lemma closure_after_change (st : State) (v : ISettings) :
  onBlur_memo (step (FieldChange v) st) = mkClosure v (prevValues st).
Proof. handler_cases st; reflexivity. Qed.

Lemma closure_after_load (st : State) (s : ISettings) :
  onBlur_memo (step (LoadResolved s) st) = mkClosure s s.
Proof. handler_cases st; reflexivity. Qed.

(** X11: the autosave never writes a record with an empty API key: in a
    run without submits (loads, edits, blurs and toggles, whatever the
    outcome of the writes), every call of setSettings that is added
    carries a non-empty API key. *)
Theorem autosave_writes_have_key (es : list event) (st : State) :
  forallb not_submit es = true ->
  forallb write_has_key (log st) = true ->
  forallb write_has_key (log (run es st)) = true.
Proof.
  revert st. induction es as [|e es IH]; intros st Hes Hlog;
    [exact Hlog|].
  cbn in Hes. apply andb_true_iff in Hes. destruct Hes as [He Hes].
  cbn [run]. apply IH; [exact Hes|].
  rewrite log_step, forallb_app, Hlog. cbn [andb].
  destruct e as [s|v|r|b r|d r]; try discriminate He;
    unfold effects_of; try reflexivity;
    unfold guard;
    destruct (JS.truthy (apiKeys (c_values (onBlur_memo st)))) eqn:E;
    cbn [andb]; try reflexivity;
    destruct (negb (isEqual (c_values (onBlur_memo st))
                            (c_prevValues (onBlur_memo st))));
    try reflexivity; cbn; rewrite E; reflexivity.
Qed.

Lemma autosave_writes_have_key_witness :
  forallb not_submit
    [LoadResolved persisted; FieldChange edited; FieldBlur Resolved;
     CheckboxToggle true Rejected] = true
  /\ forallb write_has_key (log mounted) = true
  /\ forallb write_has_key
       (log (run [LoadResolved persisted; FieldChange edited;
                  FieldBlur Resolved; CheckboxToggle true Rejected]
                 mounted)) = true.
Proof.
  split; [reflexivity|]. split; [reflexivity|].
  apply (autosave_writes_have_key
           [LoadResolved persisted; FieldChange edited; FieldBlur Resolved;
            CheckboxToggle true Rejected] mounted); reflexivity.
Defined.

Lemma props_run (es : list event) (st : State) :
  props (run es st) = props st.
Proof.
  revert st. induction es as [|e es IH]; intros st; [reflexivity|].
  cbn [run]. rewrite IH. apply props_step.
Qed.

(** X12: the toast and the onSave callback belong to the submit alone. In
    any run the number of toasts shown grows by the number of submits
    whose write resolved, and so does the number of onSave calls when the
    callback was supplied (none otherwise); loads, edits, blurs, toggles
    and rejected submits add neither. *)
Theorem toast_and_onSave_per_resolved_submit
        (es : list event) (st : State) :
  length (filter is_toast (log (run es st)))
  = length (filter is_toast (log st)) + resolved_submits es
  /\ length (filter is_onSave (log (run es st)))
     = length (filter is_onSave (log st))
       + (if has_onSave (props st) then resolved_submits es else 0).
Proof.
  revert st. induction es as [|e es IH]; intros st.
  - cbn. split; [lia|]. destruct (has_onSave (props st)); lia.
  - cbn [run]. destruct (IH (step e st)) as [Ht Hs].
    rewrite Ht, Hs, props_step, log_step, !filter_app, !length_app.
    clear IH Ht Hs.
    destruct e as [s|v|r|b r|d r]; unfold effects_of;
      try (destruct (guard (onBlur_memo st)));
      try destruct r;
      destruct (has_onSave (props st)); cbn; split; lia.
Qed.

(** X13: the loading flag shows how the write of the last submit
    settled: false after a resolved one, true after a rejected one, until
    the next submit; without any submit it is what it was. No other event
    touches it. *)
Theorem loading_follows_last_submit (es : list event) (st : State) :
  loading (run es st)
  = match last_submit es with
    | Some Resolved => false
    | Some Rejected => true
    | None => loading st
    end.
Proof.
  revert st. induction es as [|e es IH]; intros st; [reflexivity|].
  cbn [run last_submit]. rewrite IH.
  destruct (last_submit es) as [[|]|]; try reflexivity.
  rewrite loading_step. destruct e as [s|v|r|b r|d r]; reflexivity.
Qed.

(** X14: the first blur after an edit decides on the edited snapshot and
    the current baseline: it calls setSettings with the edited snapshot
    when its API key is not empty and it differs from the baseline, and
    does nothing otherwise. *)
Theorem blur_after_edit (st : State) (v : ISettings) (r : settled) :
  new_effects (FieldBlur r) (step (FieldChange v) st)
  = if JS.truthy (apiKeys v) && negb (isEqual v (prevValues st))
    then [CallSetSettings v]
    else [].
Proof.
  rewrite new_effects_step. unfold effects_of, guard.
  rewrite closure_after_change. reflexivity.
Qed.

(** X15: right after the settings arrive nothing is written: neither a
    blur nor a toggle of the checkbox calls setSettings, whatever the
    settings are. *)
Theorem no_write_after_load
        (st : State) (s : ISettings) (r : settled) (checked : bool) :
  new_effects (FieldBlur r) (step (LoadResolved s) st) = []
  /\ new_effects (CheckboxToggle checked r) (step (LoadResolved s) st) = [].
Proof.
  rewrite !new_effects_step. unfold effects_of, guard.
  rewrite closure_after_load. cbn [c_values c_prevValues].
  assert (H : isEqual s s = true) by (apply isEqual_eq; reflexivity).
  rewrite H, andb_false_r. split; reflexivity.
Qed.

Lemma blur_step_resolved (st : State) :
  values_changed st = false ->
  guard (onBlur_memo st) = true ->
  values_changed (step (FieldBlur Resolved) st) = false
  /\ onBlur_memo (step (FieldBlur Resolved) st) = onBlur_memo st
  /\ prevValues (step (FieldBlur Resolved) st) = c_values (onBlur_memo st)
  /\ stored (step (FieldBlur Resolved) st)
     = Some (c_values (onBlur_memo st)).
Proof.
  unfold guard.
  handler_cases st; intros H Hg; try discriminate H.
  cbn [c_values c_prevValues] in Hg. rewrite Hg. handler_eval.
  repeat split; reflexivity.
Qed.

(** X16: once a blur writes, every further blur writes again. From a
    state in which the guard of the onBlur the fields hold passes, any
    number of blurs in a row (writes resolving) each call setSettings
    with the same snapshot, although after the first one the baseline and
    the stored record already are that snapshot. *)
Theorem repeated_blurs_write_again (n : nat) (st : State) :
  values_changed st = false ->
  guard (onBlur_memo st) = true ->
  log (run (repeat (FieldBlur Resolved) (S n)) st)
  = log st ++ repeat (CallSetSettings (c_values (onBlur_memo st))) (S n)
  /\ prevValues (run (repeat (FieldBlur Resolved) (S n)) st)
     = c_values (onBlur_memo st)
  /\ stored (run (repeat (FieldBlur Resolved) (S n)) st)
     = Some (c_values (onBlur_memo st)).
Proof.
  revert st. induction n as [|n IH]; intros st Hch Hg;
    destruct (blur_step_resolved st Hch Hg) as (Hch' & Hc & Hp & Hs).
  - cbn [repeat run]. rewrite log_step. unfold effects_of.
    rewrite Hg. repeat split; assumption.
  - change (run (repeat (FieldBlur Resolved) (S (S n))) st)
      with (run (repeat (FieldBlur Resolved) (S n))
                (step (FieldBlur Resolved) st)).
    assert (Hg' : guard (onBlur_memo (step (FieldBlur Resolved) st)) = true)
      by (rewrite Hc; exact Hg).
    destruct (IH _ Hch' Hg') as (Hlog & Hprev & Hsto).
    rewrite Hlog, Hprev, Hsto, Hc, log_step. unfold effects_of.
    rewrite Hg, <- app_assoc. repeat split; reflexivity.
Qed.

Lemma repeated_blurs_write_again_witness :
  values_changed (run [LoadResolved persisted; FieldChange edited] mounted)
  = false
  /\ guard (onBlur_memo
              (run [LoadResolved persisted; FieldChange edited] mounted))
     = true
  /\ log (run (repeat (FieldBlur Resolved) 3)
              (run [LoadResolved persisted; FieldChange edited] mounted))
     = [CallSetSettings edited; CallSetSettings edited;
        CallSetSettings edited].
Proof.
  split; [reflexivity|]. split; [reflexivity|].
  apply (repeated_blurs_write_again 2
           (run [LoadResolved persisted; FieldChange edited] mounted));
    reflexivity.
Defined.

(** X17: a toggle never writes the toggled snapshot. When the onBlur the
    checkbox holds closes over the current values and the new flag
    differs from the current one, the form takes the toggled snapshot,
    but the call of setSettings the toggle makes, if any, carries the
    values from before the toggle. *)
Theorem toggle_never_writes_toggled
        (st : State) (checked : bool) (r : settled) :
  c_values (onBlur_memo st) = values st ->
  checked <> autoTranslate (values st) ->
  values (step (CheckboxToggle checked r) st)
  = with_autoTranslate checked (values st)
  /\ ~ In (CallSetSettings (with_autoTranslate checked (values st)))
          (new_effects (CheckboxToggle checked r) st)
  /\ (new_effects (CheckboxToggle checked r) st = []
      \/ new_effects (CheckboxToggle checked r) st
         = [CallSetSettings (values st)]).
Proof.
  intros Hc Hneq.
  split; [apply toggle_effects|].
  rewrite new_effects_step. unfold effects_of. rewrite Hc.
  destruct (guard (onBlur_memo st)).
  - split; [|right; reflexivity].
    intros [H|[]]. injection H as H.
    apply Hneq. rewrite H. destruct (values st); reflexivity.
  - split; [intros []|left; reflexivity].
Qed.

Lemma toggle_never_writes_toggled_witness :
  c_values (onBlur_memo (run [LoadResolved persisted; FieldChange edited]
                             mounted))
  = values (run [LoadResolved persisted; FieldChange edited] mounted)
  /\ true <> autoTranslate
               (values (run [LoadResolved persisted; FieldChange edited]
                            mounted))
  /\ new_effects (CheckboxToggle true Resolved)
       (run [LoadResolved persisted; FieldChange edited] mounted)
     = [CallSetSettings edited].
Proof.
  split; [reflexivity|]. split; [discriminate|].
  destruct (toggle_never_writes_toggled
              (run [LoadResolved persisted; FieldChange edited] mounted)
              true Resolved eq_refl ltac:(discriminate))
    as (_ & _ & [H|H]); [discriminate H|exact H].
Defined.

(** X18: in every state the form reaches from its first render, the
    onBlur the fields hold closes over the current values (it is its
    baseline that may be an old one). *)
Theorem onBlur_sees_current_values
        (url : string) (auto : bool) (lang : string) (p : IPopupProps)
        (es : list event) :
  values_changed (run es (mount url auto lang p)) = false
  /\ c_values (onBlur_memo (run es (mount url auto lang p)))
     = values (run es (mount url auto lang p)).
Proof.
  assert (H : forall st,
             values_changed st = false
             /\ c_values (onBlur_memo st) = values st ->
             values_changed (run es st) = false
             /\ c_values (onBlur_memo (run es st)) = values (run es st)).
  { induction es as [|e es IH]; intros st Hst; [exact Hst|].
    cbn [run]. apply IH, fresh_step, Hst. }
  apply H. split; reflexivity.
Qed.

End SettingsFacts.

(** ** The selectors *)

Section SelectorFacts.
Import utils Selectors.
Local Open Scope list_scope.

Lemma fold_left_snoc {A B : Type} (f : A -> B) (l : list A) (acc : list B) :
  fold_left (fun acc p => acc ++ [f p]) l acc = acc ++ map f l.
Proof.
  revert acc. induction l as [|a l IH]; intros acc; simpl.
  - symmetry. apply app_nil_r.
  - rewrite IH, <- app_assoc. reflexivity.
Qed.

(** X8: the language options are the supported languages, one option per
    pair, in the same order: the ids are the language codes and the
    labels their labels; choosing an option makes LanguageSelector emit
    its language code. *)
Theorem langOptions_are_the_languages (ls : list (string * string)) :
  langOptions ls = map (fun p => mkOption (fst p) (Some (snd p))) ls
  /\ map id (langOptions ls) = map fst ls
  /\ length (langOptions ls) = length ls
  /\ forall p, In p ls ->
       exists o, In o (langOptions ls)
                 /\ label o = Some (snd p)
                 /\ language_onChange [o] = Emitted (Some (fst p)).
Proof.
  assert (H : langOptions ls
              = map (fun p => mkOption (fst p) (Some (snd p))) ls)
    by (unfold langOptions; rewrite fold_left_snoc; reflexivity).
  rewrite H. split; [reflexivity|].
  split; [rewrite map_map; reflexivity|].
  split; [apply length_map|].
  intros p Hp. exists (mkOption (fst p) (Some (snd p))).
  split; [|split; reflexivity].
  apply in_map_iff. exists p. split; [reflexivity|exact Hp].
Qed.


(** X10: the options of TranslateModeSelector are the six modes: their ids
    are different from one another, every mode has its option, every
    option is the option of a mode, and the selector shows a mode as the
    selection whose choice emits that mode again. *)
Theorem mode_options_are_the_modes (m : TranslateMode) (o : SelectOption) :
  NoDup (map id mode_options)
  /\ In (mode_id m) (map id mode_options)
  /\ (In o mode_options -> exists m', id o = mode_id m')
  /\ mode_onChange (mode_value (Some m)) = Emitted (Some (mode_id m))
  /\ (forall m', mode_id m = mode_id m' -> m = m').
Proof.
  split.
  { cbn. repeat constructor; cbn; intuition discriminate. }
  split.
  { destruct m; cbn; tauto. }
  split.
  { cbn. intros [<-|[<-|[<-|[<-|[<-|[<-|[]]]]]]].
    - exists translate. reflexivity.
    - exists polishing. reflexivity.
    - exists summarize. reflexivity.
    - exists analyze. reflexivity.
    - exists explain_code. reflexivity.
    - exists nop. reflexivity. }
  split; [reflexivity|].
  intros m'. destruct m, m'; cbn; intros H; try reflexivity;
    discriminate H.
Qed.

End SelectorFacts.
